(** * MDXPDF-MCP: the create_pdf rendering pipeline of [src/index.ts]

    A shallow embedding of the tool handler, the argument guard
    [isCreatePDFArgs] and the pipeline [performCreatePDF], together with
    the parts of the JavaScript runtime the pipeline relies on
    ([String.prototype.replace] with the global mermaid pattern,
    [String.prototype.trim], template literals, [process.env]).

    JavaScript strings are sequences of UTF-16 code units; they are
    modelled as lists of code units so that the non-ASCII white space
    removed by [trim] is representable. *)

From Stdlib Require Import NArith List Ascii String Lia Bool DecimalString.
From stdpp Require Import base option list gmap.

Import ListNotations.
Set Warnings "-register-all".
Local Open Scope N_scope.
Local Open Scope list_scope.

(** ** Strings as UTF-16 code units *)

Abbreviation code_unit := N (only parsing).
Abbreviation jsstring := (list N) (only parsing).

(** An ASCII literal of the source, as code units. *)
Definition lit (s : string) : jsstring :=
  map N_of_ascii (list_ascii_of_string s).

Definition LF : N := 10.
Definition DQUOTE : N := 34.
Definition BACKSLASH : N := 92.
Definition BACKTICK : N := 96.

(** [`${a}${b}...`]: a template literal is the concatenation of its parts. *)
Definition template (parts : list jsstring) : jsstring := concat parts.

(** [p] followed by the remainder, when [s] starts with [p]. *)
Fixpoint strip_prefix (p s : jsstring) : option jsstring :=
  match p, s with
  | [], _ => Some s
  | _ :: _, [] => None
  | a :: p', b :: s' => if N.eqb a b then strip_prefix p' s' else None
  end.

(** Does [p] occur in [s] as a contiguous substring? *)
Fixpoint occursb (p s : jsstring) : bool :=
  match strip_prefix p s with
  | Some _ => true
  | None =>
      match s with
      | [] => false
      | _ :: s' => occursb p s'
      end
  end.

(** No non-empty proper suffix of [p] is also a prefix of [p]: two
    occurrences of [p] cannot overlap. *)
Definition borderfree (p : jsstring) : bool :=
  forallb (fun k => match strip_prefix (skipn k p) p with
                    | Some _ => false
                    | None => true
                    end)
          (seq 1 (length p - 1)).

(** ** [String.prototype.trim]

    White space is the ECMAScript WhiteSpace production (TAB, VT, FF, SP,
    NBSP, ZWNBSP and the Unicode space separators) together with the
    LineTerminator production (LF, CR, LS, PS). *)

Definition is_white_space (c : N) : bool :=
  (c =? 9) || (c =? 10) || (c =? 11) || (c =? 12) || (c =? 13) ||
  (c =? 32) || (c =? 160) || (c =? 5760) ||
  ((8192 <=? c) && (c <=? 8202)) ||
  (c =? 8232) || (c =? 8233) || (c =? 8239) || (c =? 8287) ||
  (c =? 12288) || (c =? 65279).

Fixpoint trim_start (s : jsstring) : jsstring :=
  match s with
  | [] => []
  | c :: s' => if is_white_space c then trim_start s' else s
  end.

Definition trim_end (s : jsstring) : jsstring :=
  rev (trim_start (rev s)).

Definition trim (s : jsstring) : jsstring :=
  trim_end (trim_start s).

(** ** The mermaid pattern and [String.prototype.replace]

    The pattern is [/```mermaid\n([\s\S]*?)\n```/g]: the literal opening
    tag, a lazily repeated any-character class (the capture), and the
    literal closing fence. *)

Definition fence_open : jsstring := lit "```mermaid" ++ [LF].
Definition fence_close : jsstring := LF :: lit "```".

(** The lazy quantifier [[\s\S]*?] followed by the literal [close]: the
    engine first tries to continue with [close]; only when that fails does
    it let the class consume one more code unit.  The result is the
    capture and what follows the match. *)
Fixpoint lazy_until (close s : jsstring) : option (jsstring * jsstring) :=
  match strip_prefix close s with
  | Some after => Some ([], after)
  | None =>
      match s with
      | [] => None
      | c :: s' =>
          match lazy_until close s' with
          | Some (code, after) => Some (c :: code, after)
          | None => None
          end
      end
  end.

(** One attempt of the pattern at the start of [s]. *)
Definition match_at (s : jsstring) : option (jsstring * jsstring) :=
  match strip_prefix fence_open s with
  | Some rest => lazy_until fence_close rest
  | None => None
  end.

(** What a global scan leaves: code units outside every match, and the
    captures of the matches, in source order. *)
Inductive piece : Type :=
  | Keep (c : N)
  | Match (code : jsstring).

(** The global scan.  [skip] is the number of code units still covered by
    the previous match (the distance to the engine's [lastIndex]); with
    [skip = 0] the pattern is tried at the current position and, on
    failure, the position advances by one. *)
Fixpoint scan (skip : nat) (s : jsstring) : list piece :=
  match s with
  | [] => []
  | c :: s' =>
      match skip with
      | S k => scan k s'
      | O =>
          match match_at s with
          | Some (code, after) =>
              Match code :: scan (length s' - length after) s'
          | None => Keep c :: scan 0 s'
          end
      end
  end.

Definition render_piece (replacer : jsstring -> jsstring) (p : piece)
  : jsstring :=
  match p with
  | Keep c => [c]
  | Match code => replacer code
  end.

(** [s.replace(pattern, (_, code) => replacer(code))]. *)
Definition replace_mermaid (replacer : jsstring -> jsstring) (s : jsstring)
  : jsstring :=
  flat_map (render_piece replacer) (scan 0 s).

(** The captures handed to the replacer, in order. *)
Fixpoint captures (ps : list piece) : list jsstring :=
  match ps with
  | [] => []
  | Keep _ :: ps' => captures ps'
  | Match code :: ps' => code :: captures ps'
  end.

Definition div_open : jsstring :=
  lit "<div class=" ++ [DQUOTE] ++ lit "mermaid" ++ [DQUOTE] ++ lit ">" ++ [LF].
Definition div_close : jsstring := LF :: lit "</div>".

(** The replacer of lines 279-282. *)
Definition mermaid_container (code : jsstring) : jsstring :=
  let cleanCode := trim code in
  template [div_open; cleanCode; div_close].

(** [processedMarkdown] of lines 277-283. *)
Definition preprocess (markdown_source : jsstring) : jsstring :=
  replace_mermaid mermaid_container markdown_source.

(** ** Values received over the tool protocol

    The arguments of a tool call are JSON values; [VUndefined] stands for
    an absent [arguments] member.  Only the truthiness of a number is
    ever observed, so its payload is kept as an integer. *)

Inductive value : Type :=
  | VUndefined
  | VNull
  | VBool (b : bool)
  | VNumber (n : Z)
  | VString (s : jsstring)
  | VArray (items : list value)
  | VObject (fields : list (jsstring * value)).

Inductive type_tag : Type :=
  | TUndefined | TObject | TBoolean | TNumber | TString.

(** [typeof v]; note [typeof null === "object"]. *)
Definition typeof (v : value) : type_tag :=
  match v with
  | VUndefined => TUndefined
  | VNull => TObject
  | VBool _ => TBoolean
  | VNumber _ => TNumber
  | VString _ => TString
  | VArray _ => TObject
  | VObject _ => TObject
  end.

Definition type_tag_eqb (a b : type_tag) : bool :=
  match a, b with
  | TUndefined, TUndefined | TObject, TObject | TBoolean, TBoolean
  | TNumber, TNumber | TString, TString => true
  | _, _ => false
  end.

(** ToBoolean, as used by [!args]. *)
Definition truthy (v : value) : bool :=
  match v with
  | VUndefined | VNull => false
  | VBool b => b
  | VNumber n => negb (Z.eqb n 0)
  | VString s => match s with [] => false | _ :: _ => true end
  | VArray _ | VObject _ => true
  end.

Definition jsstring_eqb (a b : jsstring) : bool :=
  bool_decide (a = b).

Fixpoint assoc (k : jsstring) (fields : list (jsstring * value))
  : option value :=
  match fields with
  | [] => None
  | (k', v) :: fields' => if jsstring_eqb k k' then Some v else assoc k fields'
  end.

(** The canonical decimal spelling of an array index. *)
Definition index_name (i : nat) : jsstring :=
  lit (NilEmpty.string_of_uint (Nat.to_uint i)).

(** [k in v] for the keys the guard asks about.  Objects answer with
    their own members, arrays with their indices and [length]; the
    members inherited from the built-in prototypes are named neither
    [file_name] nor [markdown_source]. *)
Definition has_property (k : jsstring) (v : value) : bool :=
  match v with
  | VObject fields => match assoc k fields with Some _ => true | None => false end
  | VArray items =>
      jsstring_eqb k (lit "length") ||
      existsb (fun i => jsstring_eqb k (index_name i)) (seq 0 (length items))
  | _ => false
  end.

(** [v.k] for an object [v] (member access after the guard). *)
Definition get_property (k : jsstring) (v : value) : value :=
  match v with
  | VObject fields => match assoc k fields with Some x => x | None => VUndefined end
  | _ => VUndefined
  end.

(** [isCreatePDFArgs], lines 255-267. *)
Definition isCreatePDFArgs (args : value) : bool :=
  type_tag_eqb (typeof args) TObject &&
  negb (match args with VNull => true | _ => false end) &&
  has_property (lit "file_name") args &&
  type_tag_eqb (typeof (get_property (lit "file_name") args)) TString &&
  has_property (lit "markdown_source") args &&
  type_tag_eqb (typeof (get_property (lit "markdown_source") args)) TString.

(** The string behind a value the guard has narrowed to [string]. *)
Definition as_string (v : value) : jsstring :=
  match v with
  | VString s => s
  | _ => []
  end.

(** ** Effects: the file system and the conversion engine

    [writeFile] and [mdToPdf] are external; a [world] says which calls
    are rejected and with what message.  A computation returns the
    events it performed, in order, and either a value or the message of
    the error it threw (what the [catch] clause of the handler extracts
    with [error instanceof Error ? error.message : String(error)]). *)

Inductive plugin : Type :=
  | markdownItEmoji
  | markdownItCheckbox
  | markdownItFootnote
  | markdownItDeflist
  | markdownItContainer.

Record Margin : Type := {
  margin_top : jsstring;
  margin_right : jsstring;
  margin_bottom : jsstring;
  margin_left : jsstring
}.

Record PdfOptions : Type := {
  format : jsstring;
  margin : Margin;
  timeout : option N
}.

Record MarkedOptions : Type := {
  markdownIt : option unit;
  markdownItPlugins : list (plugin * list jsstring)
}.

Record PdfConfig : Type := {
  dest : jsstring;
  stylesheet : list jsstring;
  body_class : list jsstring;
  pdf_options : PdfOptions;
  marked_options : MarkedOptions
}.

Inductive event : Type :=
  | EvWriteFile (path data : jsstring)
  | EvMdToPdf (path : jsstring) (config : PdfConfig).

Record world : Type := {
  writeFile_rejects : jsstring -> jsstring -> option jsstring;
  mdToPdf_rejects : jsstring -> PdfConfig -> option jsstring
}.

Inductive outcome (A : Type) : Type :=
  | Returned (a : A)
  | Thrown (message : jsstring).
Arguments Returned {A} a.
Arguments Thrown {A} message.

Definition io (A : Type) : Type := world -> list event * outcome A.

Definition io_ret {A} (a : A) : io A := fun _ => ([], Returned a).

Definition io_bind {A B} (m : io A) (k : A -> io B) : io B :=
  fun w =>
    match m w with
    | (t1, Returned a) =>
        match k a w with
        | (t2, r) => (t1 ++ t2, r)
        end
    | (t1, Thrown e) => (t1, Thrown e)
    end.

Definition throw {A} (message : jsstring) : io A :=
  fun _ => ([], Thrown message).

Definition try_catch {A} (m : io A) (handler : jsstring -> io A) : io A :=
  fun w =>
    match m w with
    | (t1, Returned a) => (t1, Returned a)
    | (t1, Thrown e) =>
        match handler e w with
        | (t2, r) => (t1 ++ t2, r)
        end
    end.

#[global] Instance io_mret : MRet io := @io_ret.
#[global] Instance io_mbind : MBind io := fun A B k m => io_bind m k.

Definition writeFile (path data : jsstring) : io unit :=
  fun w =>
    ([EvWriteFile path data],
     match writeFile_rejects w path data with
     | Some e => Thrown e
     | None => Returned tt
     end).

Definition mdToPdf (path : jsstring) (config : PdfConfig) : io unit :=
  fun w =>
    ([EvMdToPdf path config],
     match mdToPdf_rejects w path config with
     | Some e => Thrown e
     | None => Returned tt
     end).

(** ** [performCreatePDF], lines 269-373 *)

Record CreatePDFResult : Type := {
  file_name : jsstring;
  download_url : jsstring
}.

(** [a || b] on an environment lookup: an unset variable is [undefined],
    and the empty string is falsy as well. *)
Definition or_default (a : option jsstring) (b : jsstring) : jsstring :=
  match a with
  | Some (c :: s) => c :: s
  | Some [] | None => b
  end.

Definition default_save_path : jsstring :=
  lit "/home/murali/Documents/GeneratedPDF".

Definition save_path_of (env : gmap (list N) (list N)) : jsstring :=
  or_default (env !! lit "SAVE_PATH") default_save_path.

Definition dq (s : jsstring) : jsstring := [DQUOTE] ++ s ++ [DQUOTE].

(** A multi-line literal whose every line, the last included, ends in a
    line feed. *)
Definition unlines (ls : list jsstring) : jsstring :=
  flat_map (fun l => l ++ [LF]) ls.

(** The template literal of lines 285-338 (no interpolation). *)
Definition math_script : jsstring :=
  unlines [
    lit "<style>";
    lit "/* Override Mermaid font styles to use Computer Modern */";
    lit ".mermaid text,";
    lit ".mermaid .node text,";
    lit ".mermaid .edgeLabel text,";
    lit ".mermaid .label text,";
    lit ".mermaid .labelText,";
    lit ".mermaid .actor,";
    lit ".mermaid .messageText,";
    lit ".mermaid .noteText,";
    lit ".mermaid .loopText {";
    lit "  font-family: " ++ dq (lit "CMU Serif") ++ lit ", " ++ dq (lit "Computer Modern") ++ lit ", serif !important;";
    lit "  font-size: 14px !important;";
    lit "}";
    lit "";
    lit ".mermaid .node rect,";
    lit ".mermaid .node circle,";
    lit ".mermaid .node ellipse,";
    lit ".mermaid .node polygon {";
    lit "  stroke: #333 !important;";
    lit "}";
    lit "";
    lit ".mermaid .edgePath path {";
    lit "  stroke: #333 !important;";
    lit "}";
    lit "</style>";
    lit "<script>";
    lit "window.MathJax = {";
    lit "  tex: {";
    lit "    inlineMath: [['$', '$'], ['\\(', '\\)']],";
    lit "    displayMath: [['$$', '$$'], ['\\[', '\\]']]";
    lit "  }";
    lit "};";
    lit "</script>";
    lit "<script src=" ++ dq (lit "https://cdnjs.cloudflare.com/ajax/libs/mathjax/3.2.2/es5/tex-mml-chtml.js") ++ lit "></script>";
    lit "<script src=" ++ dq (lit "https://cdn.jsdelivr.net/npm/mermaid@11/dist/mermaid.min.js") ++ lit "></script>";
    lit "<script>";
    lit "  mermaid.initialize({ ";
    lit "    startOnLoad: true,";
    lit "    theme: 'default',";
    lit "    themeVariables: {";
    lit "      primaryColor: '#f4f4f4',";
    lit "      primaryTextColor: '#1f2937',";
    lit "      primaryBorderColor: '#333',";
    lit "      lineColor: '#333',";
    lit "      sectionBkgColor: '#f4f4f4',";
    lit "      altSectionBkgColor: '#fff',";
    lit "      fontFamily: '" ++ dq (lit "CMU Serif") ++ lit ", " ++ dq (lit "Computer Modern") ++ lit ", serif',";
    lit "      fontSize: '14px'";
    lit "    },";
    lit "    fontFamily: '" ++ dq (lit "CMU Serif") ++ lit ", " ++ dq (lit "Computer Modern") ++ lit ", serif'";
    lit "  });";
    lit "</script>"
  ].

(** The plugin list of lines 355-362. *)
Definition plugin_chain : list (plugin * list jsstring) :=
  [ (markdownItEmoji, []);
    (markdownItCheckbox, []);
    (markdownItFootnote, []);
    (markdownItDeflist, []);
    (markdownItContainer, [lit "warning"]);
    (markdownItContainer, [lit "info"]) ].

Definition staging_path (save_path file_name : jsstring) : jsstring :=
  template [save_path; lit "/"; file_name; lit ".md"].

Definition pdf_path (save_path file_name : jsstring) : jsstring :=
  template [save_path; lit "/"; file_name; lit ".pdf"].

(** The second argument of [mdToPdf], lines 342-364. *)
Definition pdf_config (save_path file_name : jsstring) : PdfConfig :=
  {| dest := pdf_path save_path file_name;
     stylesheet := [lit "/home/murali/Documents/MCP Servers/MDXPDF-MCP/style.css"];
     body_class := [lit "markdown-body"];
     pdf_options :=
       {| format := lit "A4";
          margin := {| margin_top := lit "1in"; margin_right := lit "1in";
                       margin_bottom := lit "1in"; margin_left := lit "1in" |};
          timeout := Some 30000 |};
     marked_options :=
       {| markdownIt := None;
          markdownItPlugins := plugin_chain |} |}.

Definition download_url_of (file_name : jsstring) : jsstring :=
  template [lit "http://localhost:8000/"; file_name; lit ".pdf"].

Definition performCreatePDF (env : gmap (list N) (list N))
    (file_name markdown_source : jsstring) : io CreatePDFResult :=
  let save_path := save_path_of env in
  let processedMarkdown := preprocess markdown_source in
  writeFile (staging_path save_path file_name)
            (math_script ++ processedMarkdown) ;;
  mdToPdf (staging_path save_path file_name)
          (pdf_config save_path file_name) ;;
  let downloadUrl := download_url_of file_name in
  let result := {| file_name := file_name; download_url := downloadUrl |} in
  mret result.

(** ** [JSON.stringify(results, null, 2)] *)

Definition hex_digit (n : N) : N :=
  if n <? 10 then 48 + n else 87 + n.

(** [\uXXXX] with lower-case hexadecimal digits. *)
Definition unicode_escape (c : N) : jsstring :=
  lit "\u" ++ [hex_digit (c / 4096 mod 16); hex_digit (c / 256 mod 16);
               hex_digit (c / 16 mod 16); hex_digit (c mod 16)].

Definition is_leading_surrogate (c : N) : bool :=
  (55296 <=? c) && (c <=? 56319).
Definition is_trailing_surrogate (c : N) : bool :=
  (56320 <=? c) && (c <=? 57343).

(** The body of QuoteJSONString: the two-character escapes, [\uXXXX] for
    the other control characters and for lone surrogates, everything
    else verbatim (a surrogate pair stays a pair). *)
Fixpoint quote_json_body (s : jsstring) : jsstring :=
  match s with
  | [] => []
  | c :: s' =>
      if c =? 8 then lit "\b" ++ quote_json_body s'
      else if c =? 9 then lit "\t" ++ quote_json_body s'
      else if c =? 10 then lit "\n" ++ quote_json_body s'
      else if c =? 12 then lit "\f" ++ quote_json_body s'
      else if c =? 13 then lit "\r" ++ quote_json_body s'
      else if c =? 34 then [BACKSLASH; DQUOTE] ++ quote_json_body s'
      else if c =? 92 then lit "\\" ++ quote_json_body s'
      else if c <? 32 then unicode_escape c ++ quote_json_body s'
      else if is_leading_surrogate c then
        match s' with
        | d :: s'' =>
            if is_trailing_surrogate d then c :: d :: quote_json_body s''
            else unicode_escape c ++ quote_json_body s'
        | [] => unicode_escape c
        end
      else if is_trailing_surrogate c then unicode_escape c ++ quote_json_body s'
      else c :: quote_json_body s'
  end.

Definition quote_json (s : jsstring) : jsstring := dq (quote_json_body s).

(** A [CreatePDFResult] serialised with an indentation of two spaces. *)
Definition JSON_stringify (r : CreatePDFResult) : jsstring :=
  lit "{" ++ [LF] ++
  lit "  " ++ dq (lit "file_name") ++ lit ": " ++ quote_json (file_name r) ++
  lit "," ++ [LF] ++
  lit "  " ++ dq (lit "download_url") ++ lit ": " ++ quote_json (download_url r) ++
  [LF] ++ lit "}".

(** ** The tool-call handler, lines 380-422 *)

Record CallToolParams : Type := {
  name : jsstring;
  arguments : value
}.

Record CallToolRequest : Type := {
  params : CallToolParams
}.

Record ContentItem : Type := {
  type : jsstring;
  text : jsstring
}.

Record CallToolResult : Type := {
  content : list ContentItem;
  isError : bool
}.

Definition text_content (t : jsstring) : ContentItem :=
  {| type := lit "text"; text := t |}.

Definition call_tool_handler (env : gmap (list N) (list N))
    (request : CallToolRequest) : io CallToolResult :=
  try_catch
    (let name := name (params request) in
     let args := arguments (params request) in
     if negb (truthy args) then
       throw (lit "No arguments provided")
     else if jsstring_eqb name (lit "create_pdf") then
       if negb (isCreatePDFArgs args) then
         throw (lit "Invalid arguments for create_pdf")
       else
         let file_name := as_string (get_property (lit "file_name") args) in
         let markdown_source :=
           as_string (get_property (lit "markdown_source") args) in
         results ← performCreatePDF env file_name markdown_source;
         mret {| content := [text_content (JSON_stringify results)];
                 isError := false |}
     else
       mret {| content := [text_content (template [lit "Unknown tool: "; name])];
               isError := true |})
    (fun message =>
       mret {| content := [text_content (template [lit "Error: "; message])];
               isError := true |}).

(** The response of a successful create_pdf call. *)
Definition success_response (results : CreatePDFResult) : CallToolResult :=
  {| content := [text_content (JSON_stringify results)]; isError := false |}.

(** ** The earlier copy of the pipeline, lines 79-130

    The file also carries an earlier copy of the server.  Its guard and
    its handler are the ones above; its pipeline has no mermaid step, a
    shorter preamble, no engine timeout and another stylesheet path. *)

Module Legacy.

Definition math_script : jsstring :=
  unlines [
    lit "<script>";
    lit "window.MathJax = {";
    lit "  tex: {";
    lit "    inlineMath: [['$', '$'], ['\\(', '\\)']],";
    lit "    displayMath: [['$$', '$$'], ['\\[', '\\]']]";
    lit "  }";
    lit "};";
    lit "</script>";
    lit "<script src=" ++ dq (lit "https://cdnjs.cloudflare.com/ajax/libs/mathjax/3.2.2/es5/tex-mml-chtml.js") ++ lit "></script>"
  ].

Definition plugin_chain : list (plugin * list jsstring) :=
  [ (markdownItEmoji, []);
    (markdownItCheckbox, []);
    (markdownItFootnote, []);
    (markdownItDeflist, []);
    (markdownItContainer, [lit "warning"]);
    (markdownItContainer, [lit "info"]) ].

Definition pdf_config (save_path file_name : jsstring) : PdfConfig :=
  {| dest := pdf_path save_path file_name;
     stylesheet := [lit "/home/murali/Documents/MCP servers/MDXPDF-MCP/style.css"];
     body_class := [lit "markdown-body"];
     pdf_options :=
       {| format := lit "A4";
          margin := {| margin_top := lit "1in"; margin_right := lit "1in";
                       margin_bottom := lit "1in"; margin_left := lit "1in" |};
          timeout := None |};
     marked_options :=
       {| markdownIt := None;
          markdownItPlugins := plugin_chain |} |}.

Definition performCreatePDF (env : gmap (list N) (list N))
    (file_name markdown_source : jsstring) : io CreatePDFResult :=
  let save_path := save_path_of env in
  writeFile (staging_path save_path file_name)
            (math_script ++ markdown_source) ;;
  mdToPdf (staging_path save_path file_name)
          (pdf_config save_path file_name) ;;
  let downloadUrl := download_url_of file_name in
  let result := {| file_name := file_name; download_url := downloadUrl |} in
  mret result.

End Legacy.

(** ** Documents with mermaid fences

    The shape of the inputs the preprocessor is specified on: stretches
    of ordinary text separated by mermaid fences.  A fence is its opening
    line, its content lines (each ended by a line feed) and the closing
    backticks. *)

Inductive document : Type :=
  | Tail (text : jsstring)
  | Block (text : jsstring) (lines : list jsstring) (rest : document).

Definition backticks : jsstring := lit "```".

Definition fence_source (lines : list jsstring) : jsstring :=
  fence_open ++ unlines lines ++ backticks.

(** The inner content of a fence: its lines, separated by line feeds. *)
Fixpoint fence_content (lines : list jsstring) : jsstring :=
  match lines with
  | [] => []
  | [l] => l
  | l :: ls => l ++ LF :: fence_content ls
  end.

Fixpoint source (d : document) : jsstring :=
  match d with
  | Tail text => text
  | Block text lines rest => text ++ fence_source lines ++ source rest
  end.

(** The container element around the trimmed content of a fence. *)
Definition diagram_container (content : jsstring) : jsstring :=
  lit "<div class=" ++ dq (lit "mermaid") ++ lit ">" ++ [LF] ++
  trim content ++ [LF] ++ lit "</div>".

(** The text the specification asks for: every fence replaced by the
    container around its trimmed content, the rest untouched. *)
Fixpoint expected (d : document) : jsstring :=
  match d with
  | Tail text => text
  | Block text lines rest =>
      text ++ diagram_container (fence_content lines) ++ expected rest
  end.

Fixpoint fences (d : document) : list (list jsstring) :=
  match d with
  | Tail _ => []
  | Block _ lines rest => lines :: fences rest
  end.

(** The text outside the fences opens no mermaid fence, and no content
    holds a line feed followed by three backticks (which would close the
    fence early). *)
Fixpoint well_formed (d : document) : bool :=
  match d with
  | Tail text => negb (occursb fence_open text)
  | Block text lines rest =>
      negb (occursb fence_open text) &&
      negb (occursb fence_close (fence_content lines)) &&
      well_formed rest
  end.

(** Every fence has at least one content line. *)
Definition has_body (d : document) : bool :=
  forallb (fun lines => match lines with [] => false | _ :: _ => true end)
          (fences d).

(** ** Where a path lands

    Lexical resolution of a POSIX path: empty and [.] components are
    dropped, [..] removes the component before it. *)

Fixpoint split_on (sep : N) (s : jsstring) : list jsstring :=
  match s with
  | [] => [[]]
  | c :: s' =>
      if c =? sep then [] :: split_on sep s'
      else
        match split_on sep s' with
        | [] => [[c]]
        | x :: xs => (c :: x) :: xs
        end
  end.

(** The directory stack is kept innermost first. *)
Definition enter (stack : list jsstring) (component : jsstring)
  : list jsstring :=
  if jsstring_eqb component [] || jsstring_eqb component (lit ".") then stack
  else if jsstring_eqb component (lit "..") then tail stack
  else component :: stack.

Definition resolve (path : jsstring) : list jsstring :=
  rev (fold_left enter (split_on 47 path) []).

(** Is [path] the directory [dir] or something below it? *)
Definition within (dir path : jsstring) : bool :=
  bool_decide (resolve dir `prefix_of` resolve path).

(** The traces and results of a call in a given world. *)
Definition trace_of {A} (m : io A) (w : world) : list event := fst (m w).
Definition result_of {A} (m : io A) (w : world) : outcome A := snd (m w).

(** A world in which every external call succeeds. *)
Definition fair_world : world :=
  {| writeFile_rejects := fun _ _ => None;
     mdToPdf_rejects := fun _ _ => None |}.

(** ** Vocabulary of the properties *)

(** What the staged text carries in front of the preprocessed body. *)
Definition preamble_written (env : gmap (list N) (list N))
    (file_name markdown_source : jsstring) (w : world) : jsstring :=
  match trace_of (performCreatePDF env file_name markdown_source) w with
  | EvWriteFile _ data :: _ =>
      firstn (length data - length (preprocess markdown_source)) data
  | _ => []
  end.

(** The output directory as the specification words it: the override
    whenever the variable is set, the default otherwise. *)
Definition stated_output_dir (env : gmap (list N) (list N)) : jsstring :=
  match env !! lit "SAVE_PATH" with
  | Some p => p
  | None => default_save_path
  end.

(** [args] is an object whose member [k] is a string. *)
Definition is_string_member (k : jsstring) (args : value) : bool :=
  match args with
  | VObject fields =>
      match assoc k fields with
      | Some (VString _) => true
      | _ => false
      end
  | _ => false
  end.

(** A create_pdf call carrying exactly the two required members. *)
Definition create_pdf_request (file_name markdown_source : jsstring)
  : CallToolRequest :=
  {| params :=
       {| name := lit "create_pdf";
          arguments := VObject [ (lit "file_name", VString file_name);
                                 (lit "markdown_source", VString markdown_source) ] |} |}.

(** A create_pdf call with arbitrary arguments. *)
Definition create_pdf_call (args : value) : CallToolRequest :=
  {| params := {| name := lit "create_pdf"; arguments := args |} |}.

(** The response built by the [catch] clause. *)
Definition error_response (message : jsstring) : CallToolResult :=
  {| content := [text_content (template [lit "Error: "; message])];
     isError := true |}.

(** ** The advertised tool, lines 210-248, and the list handler,
    lines 376-378 *)

Record SchemaProperty : Type := {
  property_type : jsstring;
  property_description : jsstring
}.

Record InputSchema : Type := {
  schema_type : jsstring;
  properties : list (jsstring * SchemaProperty);
  required : list jsstring
}.

Record Tool : Type := {
  tool_name : jsstring;
  description : jsstring;
  inputSchema : InputSchema
}.

Definition packageVersion : jsstring := lit "0.5.0".

Definition CREATE_PDF_TOOL : Tool :=
  {| tool_name := lit "create_pdf";
     description :=
       lit "Creates a PDF document from the provided Markdown source code. Supports modern Markdown features including tables, checkboxes, emojis, GitHub-flavored syntax, Mermaid diagrams, and inline/display math using $ and $$.";
     inputSchema :=
       {| schema_type := lit "object";
          properties :=
            [ (lit "file_name",
               {| property_type := lit "string";
                  property_description :=
                    lit "The name of the output PDF file (extension will be added automatically)" |});
              (lit "markdown_source",
               {| property_type := lit "string";
                  property_description :=
                    lit "The Markdown source code to convert into a PDF document. Use $ for inline math and $$ for display math." |}) ];
          required := [lit "file_name"; lit "markdown_source"] |} |}.

Record ServerInfo : Type := {
  server_name : jsstring;
  server_version : jsstring
}.

Record ToolCapability : Type := {
  capability_description : jsstring;
  capability_schema : InputSchema
}.

Record ServerCapabilities : Type := {
  resources : list (jsstring * unit);
  tools_capability : list (jsstring * ToolCapability)
}.

(** The two arguments of [new Server(...)]. *)
Definition server_info : ServerInfo :=
  {| server_name := lit "tobioffice/mdxpdf-mcp";
     server_version := packageVersion |}.

Definition server_capabilities : ServerCapabilities :=
  {| resources := [];
     tools_capability :=
       [ (lit "create_pdf",
          {| capability_description := description CREATE_PDF_TOOL;
             capability_schema := inputSchema CREATE_PDF_TOOL |}) ] |}.

Record ListToolsResult : Type := {
  tools : list Tool
}.

(** The handler of [ListToolsRequestSchema]. *)
Definition list_tools_handler : io ListToolsResult :=
  mret {| tools := [CREATE_PDF_TOOL] |}.

(** ** Further vocabulary *)

(** A tool call with an arbitrary name. *)
Definition tool_call (tool : jsstring) (args : value) : CallToolRequest :=
  {| params := {| name := tool; arguments := args |} |}.

(** The response to a call of a tool the server does not know. *)
Definition unknown_tool_response (tool : jsstring) : CallToolResult :=
  {| content := [text_content (template [lit "Unknown tool: "; tool])];
     isError := true |}.

(** Every line feed that has a predecessor comes right after a carriage
    return: the line endings of the text are CR LF. *)
Fixpoint crlf_only (s : jsstring) : bool :=
  match s with
  | [] => true
  | x :: t =>
      match t with
      | [] => true
      | y :: _ => (negb (y =? 10) || (x =? 13)) && crlf_only t
      end
  end.

(** No code unit of [s] is [c]. *)
Definition free_of (c : N) (s : jsstring) : bool :=
  forallb (fun x => negb (x =? c)) s.

Definition SLASH : N := 47.

(** An opening tag at the start of [s] with a closing fence somewhere
    behind it. *)
Definition opening_closed (s : jsstring) : bool :=
  match strip_prefix fence_open s with
  | Some rest => occursb fence_close rest
  | None => false
  end.

(** Does the text hold, anywhere and wherever in a line, an opening tag
    that a line feed and three backticks follow at some distance? *)
Fixpoint fence_occursb (s : jsstring) : bool :=
  opening_closed s ||
  match s with
  | [] => false
  | _ :: s' => fence_occursb s'
  end.

Fixpoint skip_spaces (s : jsstring) : jsstring :=
  match s with
  | [] => []
  | c :: s' => if c =? 32 then skip_spaces s' else s
  end.

(** The words of the specification: a mermaid-labeled fenced code block
    is opened by a line that begins, after its indentation, with three
    backticks and the label [mermaid]. *)
Definition opens_mermaid_fence (line : jsstring) : bool :=
  match strip_prefix (lit "```mermaid") (skip_spaces line) with
  | Some _ => true
  | None => false
  end.

(** Does some line of the text open a mermaid-labeled fenced code block?
    A text without such a line contains no such block. *)
Definition has_mermaid_fence_line (s : jsstring) : bool :=
  existsb opens_mermaid_fence (split_on LF s).

(** The contents of the fences of a document hold no run of three
    backticks. *)
Definition plain_contents (d : document) : bool :=
  forallb (fun lines => negb (occursb backticks (fence_content lines)))
          (fences d).

(** A world whose file system refuses every write. *)
Definition read_only_world : world :=
  {| writeFile_rejects := fun _ _ => Some (lit "EACCES: permission denied");
     mdToPdf_rejects := fun _ _ => None |}.

(** A world whose conversion engine gives up. *)
Definition stalled_world : world :=
  {| writeFile_rejects := fun _ _ => None;
     mdToPdf_rejects := fun _ _ => Some (lit "Navigation timeout of 30000 ms exceeded") |}.

Definition report_args : value :=
  VObject [ (lit "file_name", VString (lit "report"));
            (lit "markdown_source", VString (lit "# Hi")) ].

(** * Properties *)

(** ** Prefixes and occurrences *)

Section Prefixes.

Implicit Types p s t r : list N.

Lemma strip_prefix_app p r : strip_prefix p (p ++ r) = Some r.
Proof.
  induction p as [|a p IH]; simpl; [reflexivity|].
  rewrite N.eqb_refl. exact IH.
Qed.

Lemma strip_prefix_Some p s r : strip_prefix p s = Some r -> s = p ++ r.
Proof.
  revert s. induction p as [|a p IH]; intros s H; simpl in *.
  - congruence.
  - destruct s as [|b s]; [discriminate|].
    destruct (N.eqb_spec a b) as [->|]; [|discriminate].
    f_equal. apply IH, H.
Qed.

Lemma strip_prefix_None_app p t r :
  strip_prefix p t = None -> (length p <= length t)%nat ->
  strip_prefix p (t ++ r) = None.
Proof.
  revert t. induction p as [|a p IH]; intros t H Hl; simpl in *.
  - discriminate.
  - destruct t as [|b t]; simpl in *; [lia|].
    destruct (a =? b); [|reflexivity].
    apply IH; [exact H|lia].
Qed.

(** A prefix of [p ++ r] no longer than [p] is a prefix of [p]. *)
Lemma strip_prefix_shorter u p r y :
  strip_prefix u (p ++ r) = Some y -> (length u <= length p)%nat ->
  exists v, strip_prefix u p = Some v.
Proof.
  revert p. induction u as [|a u IH]; intros p H Hl; simpl in *.
  - eauto.
  - destruct p as [|b p]; simpl in *; [lia|].
    destruct (a =? b); [|discriminate].
    apply (IH p); [exact H|lia].
Qed.

Lemma borderfree_spec p k :
  borderfree p = true -> (1 <= k)%nat -> (k < length p)%nat ->
  strip_prefix (skipn k p) p = None.
Proof.
  unfold borderfree. rewrite forallb_forall. intros H H1 H2.
  specialize (H k). rewrite in_seq in H.
  destruct (strip_prefix (skipn k p) p); [|reflexivity].
  assert (false = true) by (apply H; lia). discriminate.
Qed.

(** An occurrence of a border-free pattern cannot start inside [t] and
    run into the occurrence that follows [t]. *)
Lemma strip_prefix_straddle p t r :
  borderfree p = true -> t <> [] -> (length t < length p)%nat ->
  strip_prefix p (t ++ p ++ r) = None.
Proof.
  intros Hb Ht Hl.
  destruct (strip_prefix p (t ++ p ++ r)) as [x|] eqn:E; [|reflexivity].
  exfalso. apply strip_prefix_Some in E.
  assert (Hk : (1 <= length t)%nat) by (destruct t; simpl; [congruence|lia]).
  pose proof (borderfree_spec p (length t) Hb Hk Hl) as Hnone.
  assert (Hs : p ++ r = skipn (length t) p ++ x).
  { apply (f_equal (skipn (length t))) in E.
    rewrite skipn_app, skipn_all, Nat.sub_diag, skipn_O in E.
    simpl in E. rewrite E, skipn_app.
    replace (length t - length p)%nat with 0%nat by lia.
    rewrite skipn_O. reflexivity. }
  assert (Hp : strip_prefix (skipn (length t) p) (p ++ r) = Some x).
  { rewrite Hs. apply strip_prefix_app. }
  apply strip_prefix_shorter in Hp as [v Hv].
  - congruence.
  - rewrite length_skipn. lia.
Qed.

Lemma strip_prefix_before p t r :
  borderfree p = true -> t <> [] -> strip_prefix p t = None ->
  strip_prefix p (t ++ p ++ r) = None.
Proof.
  intros Hb Ht Hn.
  destruct (Nat.lt_ge_cases (length t) (length p)).
  - apply strip_prefix_straddle; assumption.
  - apply strip_prefix_None_app; assumption.
Qed.

Lemma occursb_cons p c s :
  occursb p (c :: s) = false ->
  strip_prefix p (c :: s) = None /\ occursb p s = false.
Proof.
  simpl occursb. destruct (strip_prefix p (c :: s)); [discriminate|].
  auto.
Qed.

Lemma occursb_nil_pattern s : occursb [] s = true.
Proof. destruct s; reflexivity. Qed.

Lemma occursb_app p a b : occursb p (a ++ p ++ b) = true.
Proof.
  induction a as [|c a IH]; simpl app.
  - destruct (p ++ b) eqn:E; simpl; rewrite <- ?E, strip_prefix_app;
      reflexivity.
  - simpl. rewrite IH. destruct (strip_prefix p (c :: a ++ p ++ b));
      reflexivity.
Qed.

Lemma occursb_skipn p n s :
  occursb p s = false -> occursb p (skipn n s) = false.
Proof.
  revert s. induction n as [|n IH]; intros s H; [exact H|].
  destruct s as [|c s]; [exact H|].
  rewrite skipn_cons. apply IH. apply occursb_cons in H. tauto.
Qed.

End Prefixes.

(** ** The pattern and the global scan *)

Section Scan.

Implicit Types s t r code after : list N.

Lemma fence_open_borderfree : borderfree fence_open = true.
Proof. vm_compute. reflexivity. Qed.

Lemma fence_close_borderfree : borderfree fence_close = true.
Proof. vm_compute. reflexivity. Qed.

Lemma fence_open_length : length fence_open = 11%nat.
Proof. reflexivity. Qed.

Lemma lazy_until_eq cl s :
  lazy_until cl s =
  match strip_prefix cl s with
  | Some after => Some ([], after)
  | None =>
      match s with
      | [] => None
      | c :: s' =>
          match lazy_until cl s' with
          | Some (code, after) => Some (c :: code, after)
          | None => None
          end
      end
  end.
Proof. destruct s; reflexivity. Qed.

Lemma lazy_until_sound cl s code after :
  lazy_until cl s = Some (code, after) -> s = code ++ cl ++ after.
Proof.
  revert code. induction s as [|c s IH]; intros code H;
    rewrite lazy_until_eq in H.
  - destruct (strip_prefix cl []) eqn:E; [|discriminate].
    inversion H; subst. apply strip_prefix_Some in E. exact E.
  - destruct (strip_prefix cl (c :: s)) eqn:E.
    + inversion H; subst. apply strip_prefix_Some in E. exact E.
    + destruct (lazy_until cl s) as [[code' after']|]; [|discriminate].
      inversion H; subst. simpl. f_equal. apply IH. reflexivity.
Qed.

(** The lazy quantifier stops at the first closing fence. *)
Lemma lazy_until_first cl code after :
  borderfree cl = true -> occursb cl code = false ->
  lazy_until cl (code ++ cl ++ after) = Some (code, after).
Proof.
  intros Hb. induction code as [|c code IH]; intros Hn.
  - rewrite lazy_until_eq. simpl app. rewrite strip_prefix_app. reflexivity.
  - apply occursb_cons in Hn as [Hp Hn].
    assert (Hs : strip_prefix cl (c :: (code ++ cl ++ after)) = None)
      by (apply (strip_prefix_before cl (c :: code) after Hb);
          [discriminate|exact Hp]).
    change ((c :: code) ++ cl ++ after) with (c :: (code ++ cl ++ after)).
    rewrite lazy_until_eq, Hs, (IH Hn). reflexivity.
Qed.

Lemma lazy_until_None cl s :
  occursb cl s = false -> lazy_until cl s = None.
Proof.
  intros H. destruct (lazy_until cl s) as [[code after]|] eqn:E;
    [|reflexivity].
  apply lazy_until_sound in E. subst s.
  rewrite occursb_app in H. discriminate.
Qed.

Lemma match_at_sound s code after :
  match_at s = Some (code, after) ->
  s = fence_open ++ code ++ fence_close ++ after.
Proof.
  unfold match_at. intros H.
  destruct (strip_prefix fence_open s) as [rest|] eqn:E; [|discriminate].
  apply strip_prefix_Some in E. apply lazy_until_sound in H. congruence.
Qed.

Lemma match_at_fence code after :
  occursb fence_close code = false ->
  match_at (fence_open ++ code ++ fence_close ++ after) = Some (code, after).
Proof.
  intros H. unfold match_at. rewrite strip_prefix_app.
  apply lazy_until_first; [apply fence_close_borderfree|exact H].
Qed.

Lemma match_at_None_prefix s :
  strip_prefix fence_open s = None -> match_at s = None.
Proof. unfold match_at. intros ->. reflexivity. Qed.

Lemma scan_skip m r : scan (length m) (m ++ r) = scan 0 r.
Proof. induction m as [|c m IH]; [reflexivity|exact IH]. Qed.

Lemma scan_miss c s :
  match_at (c :: s) = None -> scan 0 (c :: s) = Keep c :: scan 0 s.
Proof. intros H. cbn [scan]. rewrite H. reflexivity. Qed.

(** After a match the scan resumes right behind it. *)
Lemma scan_hit c s code after :
  match_at (c :: s) = Some (code, after) ->
  scan 0 (c :: s) = Match code :: scan 0 after.
Proof.
  intros H. cbn [scan]. rewrite H. f_equal.
  apply match_at_sound in H.
  assert (exists m, s = m ++ after) as [m ->].
  { rewrite !app_assoc in H. rewrite <- (app_assoc fence_open) in H.
    destruct (fence_open ++ code ++ fence_close) as [|c0 m] eqn:E.
    - apply (f_equal (@length N)) in E. rewrite length_app in E.
      rewrite fence_open_length in E. simpl in E. lia.
    - simpl in H. inversion H. eauto. }
  rewrite length_app.
  replace (length m + length after - length after)%nat with (length m) by lia.
  apply scan_skip.
Qed.

Lemma scan_fence code after :
  occursb fence_close code = false ->
  scan 0 (fence_open ++ code ++ fence_close ++ after) =
  Match code :: scan 0 after.
Proof.
  intros H. pose proof (match_at_fence code after H) as Hm.
  destruct (fence_open ++ code ++ fence_close ++ after) as [|c s] eqn:E.
  - apply (f_equal (@length N)) in E. rewrite length_app in E.
    rewrite fence_open_length in E. simpl in E. lia.
  - apply scan_hit. exact Hm.
Qed.

(** Text without an opening tag is kept up to the next opening tag. *)
Lemma scan_text t r :
  occursb fence_open t = false ->
  scan 0 (t ++ fence_open ++ r) = map Keep t ++ scan 0 (fence_open ++ r).
Proof.
  induction t as [|c t IH]; intros H; [reflexivity|].
  apply occursb_cons in H as [Hp H].
  change ((c :: t) ++ fence_open ++ r) with (c :: (t ++ fence_open ++ r)).
  rewrite scan_miss.
  - rewrite (IH H). reflexivity.
  - apply match_at_None_prefix.
    apply (strip_prefix_before fence_open (c :: t) r);
      [apply fence_open_borderfree|discriminate|exact Hp].
Qed.

(** Without an opening tag nothing matches. *)
Lemma scan_plain t :
  occursb fence_open t = false -> scan 0 t = map Keep t.
Proof.
  induction t as [|c t IH]; intros H; [reflexivity|].
  apply occursb_cons in H as [Hp H].
  rewrite scan_miss; [|apply match_at_None_prefix, Hp].
  rewrite (IH H). reflexivity.
Qed.

(** Nor does anything match when no closing fence can follow an
    opening tag. *)
Lemma scan_unclosed s :
  occursb fence_close (skipn (length fence_open) s) = false ->
  scan 0 s = map Keep s.
Proof.
  induction s as [|c s IH]; intros H; [reflexivity|].
  rewrite scan_miss.
  - simpl map. f_equal. apply IH.
    rewrite fence_open_length in *. rewrite skipn_cons in H.
    change 11%nat with (1 + 10)%nat. rewrite <- skipn_skipn.
    apply occursb_skipn, H.
  - destruct (match_at (c :: s)) as [[code after]|] eqn:E; [|reflexivity].
    apply match_at_sound in E. rewrite E in H.
    rewrite skipn_app, skipn_all, Nat.sub_diag, skipn_O in H.
    rewrite app_nil_l, occursb_app in H. discriminate.
Qed.

Lemma render_keep replacer t :
  flat_map (render_piece replacer) (map Keep t) = t.
Proof. induction t as [|c t IH]; simpl; [|rewrite IH]; reflexivity. Qed.

Lemma captures_keep t : captures (map Keep t) = [].
Proof. induction t as [|c t IH]; simpl; auto. Qed.

Lemma captures_app ps qs : captures (ps ++ qs) = captures ps ++ captures qs.
Proof.
  induction ps as [|[c|code] ps IH]; simpl; [reflexivity|exact IH|].
  rewrite IH. reflexivity.
Qed.

(** The pieces of a scan tile the scanned text: putting every match back
    where it was gives the text again. *)
Lemma scan_tiles s :
  flat_map (render_piece (fun code => fence_open ++ code ++ fence_close))
           (scan 0 s) = s.
Proof.
  remember (length s) as n eqn:Hn. revert s Hn.
  induction n as [n IH] using lt_wf_ind. intros [|c s] Hn; [reflexivity|].
  destruct (match_at (c :: s)) as [[code after]|] eqn:E.
  - rewrite (scan_hit _ _ _ _ E). cbn [flat_map render_piece].
    pose proof (match_at_sound _ _ _ E) as Hs.
    rewrite (IH (length after)); [|subst n|reflexivity].
    + rewrite Hs, <- !app_assoc. reflexivity.
    + rewrite Hs, !length_app, fence_open_length. lia.
  - rewrite (scan_miss _ _ E). cbn [flat_map render_piece app]. f_equal.
    apply (IH (length s)); [subst n; simpl; lia|reflexivity].
Qed.

End Scan.

(** ** [trim] *)

Section Trim.

Implicit Types s l r : list N.

Lemma trim_start_split s :
  exists l, s = l ++ trim_start s /\ forallb is_white_space l = true.
Proof.
  induction s as [|c s [l [IH Hl]]]; [exists []; auto|].
  simpl. destruct (is_white_space c) eqn:E.
  - exists (c :: l). simpl. rewrite E, Hl. split; [congruence|reflexivity].
  - exists []. auto.
Qed.

Lemma trim_start_head s :
  match trim_start s with
  | [] => True
  | c :: _ => is_white_space c = false
  end.
Proof.
  induction s as [|c s IH]; simpl; [exact I|].
  destruct (is_white_space c) eqn:E; [exact IH|exact E].
Qed.

Lemma forallb_rev (f : N -> bool) l :
  forallb f l = true -> forallb f (rev l) = true.
Proof.
  rewrite !forallb_forall. intros H x Hx. apply H, in_rev, Hx.
Qed.

(** [trim s] is [s] without a white-space prefix and a white-space
    suffix, and it begins and ends with something else. *)
Lemma trim_spec s :
  exists l r,
    s = l ++ trim s ++ r /\
    forallb is_white_space l = true /\
    forallb is_white_space r = true /\
    match trim s with
    | [] => True
    | c :: _ => is_white_space c = false
    end /\
    match rev (trim s) with
    | [] => True
    | c :: _ => is_white_space c = false
    end.
Proof.
  destruct (trim_start_split s) as [l [Hs Hl]].
  destruct (trim_start_split (rev (trim_start s))) as [r [Hr Hrw]].
  exists l, (rev r).
  assert (Hm : trim_start s = trim s ++ rev r).
  { unfold trim, trim_end. rewrite <- rev_app_distr, <- Hr.
    symmetry. apply rev_involutive. }
  split; [rewrite <- Hm; exact Hs|].
  split; [exact Hl|]. split; [apply forallb_rev, Hrw|].
  split.
  - pose proof (trim_start_head s) as Hh. rewrite Hm in Hh.
    destruct (trim s); [exact I|exact Hh].
  - unfold trim, trim_end. rewrite rev_involutive. apply trim_start_head.
Qed.

End Trim.

(** ** The preprocessor on documents with fences *)

Section Preprocessor.

Implicit Types s t pre post : list N.

Lemma fence_body lines r :
  lines <> [] ->
  unlines lines ++ backticks ++ r = fence_content lines ++ fence_close ++ r.
Proof.
  induction lines as [|l [|l' ls] IH]; intros H; [congruence| |].
  - unfold unlines. simpl. rewrite <- !app_assoc. reflexivity.
  - change (unlines (l :: l' :: ls)) with ((l ++ [LF]) ++ unlines (l' :: ls)).
    change (fence_content (l :: l' :: ls))
      with (l ++ LF :: fence_content (l' :: ls)).
    rewrite <- !app_assoc. rewrite IH by discriminate. reflexivity.
Qed.

Lemma scan_block t lines r :
  occursb fence_open t = false -> lines <> [] ->
  occursb fence_close (fence_content lines) = false ->
  scan 0 (t ++ fence_source lines ++ r) =
  map Keep t ++ Match (fence_content lines) :: scan 0 r.
Proof.
  intros Ht Hl Hc. unfold fence_source. rewrite <- !app_assoc.
  rewrite (fence_body lines r Hl), (scan_text t _ Ht), (scan_fence _ r Hc).
  reflexivity.
Qed.

Lemma occursb_backticks post :
  occursb fence_close (backticks ++ post) = occursb fence_close post.
Proof. reflexivity. Qed.

Lemma mermaid_container_eq code :
  mermaid_container code = diagram_container code.
Proof.
  unfold mermaid_container, diagram_container, template, div_open, div_close, dq.
  cbv zeta. cbn [concat]. rewrite app_nil_r, <- !app_assoc. reflexivity.
Qed.

Lemma scan_document d :
  well_formed d = true -> has_body d = true ->
  flat_map (render_piece mermaid_container) (scan 0 (source d)) = expected d /\
  captures (scan 0 (source d)) = map fence_content (fences d).
Proof.
  unfold has_body.
  induction d as [text|text lines rest IH];
    cbn [source expected fences well_formed forallb map]; intros Hw Hb.
  - apply negb_true_iff in Hw. rewrite (scan_plain text Hw).
    rewrite render_keep, captures_keep. auto.
  - apply andb_true_iff in Hw as [Hw Hrest].
    apply andb_true_iff in Hw as [Ht Hc].
    apply negb_true_iff in Ht, Hc.
    apply andb_true_iff in Hb as [Hl Hb].
    assert (lines <> []) by (destruct lines; [discriminate|congruence]).
    destruct (IH Hrest Hb) as [IH1 IH2].
    rewrite scan_block by assumption.
    rewrite flat_map_app, render_keep, captures_app, captures_keep.
    cbn [flat_map render_piece captures app].
    rewrite IH1, IH2, mermaid_container_eq. auto.
Qed.

(** C1, as amended: for a markdown_source made of text without a
    mermaid opening tag and N mermaid fences that each have at least
    one content line (and whose content holds no line feed followed by
    three backticks), the pattern matches exactly N times, the captures
    are the fence contents in source order, and the output is the
    source with every fence replaced by the container around its
    trimmed content, everything else unchanged. *)
Theorem preprocess_fences (d : document) :
  well_formed d = true -> has_body d = true ->
  preprocess (source d) = expected d /\
  captures (scan 0 (source d)) = map fence_content (fences d) /\
  length (captures (scan 0 (source d))) = length (fences d).
Proof.
  intros Hw Hb. destruct (scan_document d Hw Hb) as [H1 H2].
  split; [exact H1|]. split; [exact H2|].
  rewrite H2. apply length_map.
Qed.

Lemma lazy_until_finds cl s :
  occursb cl s = true -> exists code after, lazy_until cl s = Some (code, after).
Proof.
  induction s as [|c s IH]; cbn [occursb]; rewrite lazy_until_eq.
  - destruct (strip_prefix cl []); [eauto|discriminate].
  - destruct (strip_prefix cl (c :: s)); [eauto|].
    intros H. destruct (IH H) as (code & after & ->). eauto.
Qed.

Lemma match_at_unclosed s : opening_closed s = false -> match_at s = None.
Proof.
  unfold opening_closed, match_at.
  destruct (strip_prefix fence_open s); [apply lazy_until_None|reflexivity].
Qed.

Lemma match_at_closed s :
  opening_closed s = true -> exists code after, match_at s = Some (code, after).
Proof.
  unfold opening_closed, match_at.
  destruct (strip_prefix fence_open s); [apply lazy_until_finds|discriminate].
Qed.

Lemma fence_occursb_eq s :
  fence_occursb s =
  opening_closed s ||
  match s with
  | [] => false
  | _ :: s' => fence_occursb s'
  end.
Proof. destruct s; reflexivity. Qed.

(** Nothing matches when no opening tag has a closing fence behind it. *)
Lemma scan_no_fence s : fence_occursb s = false -> scan 0 s = map Keep s.
Proof.
  induction s as [|c s IH]; intros H; [reflexivity|].
  rewrite fence_occursb_eq in H. apply orb_false_iff in H as [Ho Hs].
  rewrite (scan_miss c s (match_at_unclosed _ Ho)), (IH Hs). reflexivity.
Qed.

(** A replacement shows: where the first match begins the text has a
    backtick and the output the [<] of the container. *)
Lemma preprocess_changes s : fence_occursb s = true -> preprocess s <> s.
Proof.
  unfold preprocess, replace_mermaid.
  induction s as [|c s IH]; intros H; [discriminate H|].
  rewrite fence_occursb_eq in H.
  destruct (opening_closed (c :: s)) eqn:Ho.
  - destruct (match_at_closed _ Ho) as (code & after & Hm).
    rewrite (scan_hit c s code after Hm). cbn [flat_map render_piece].
    intros E. apply (f_equal (hd 0)) in E.
    change (hd 0 (mermaid_container code ++ _)) with 60 in E.
    apply match_at_sound in Hm. apply (f_equal (hd 0)) in Hm.
    change (hd 0 (fence_open ++ _)) with 96 in Hm.
    cbn [hd] in E, Hm. congruence.
  - cbn [orb] in H. rewrite (scan_miss c s (match_at_unclosed _ Ho)).
    cbn [flat_map render_piece app]. intros E. inversion E as [E'].
    exact (IH H E').
Qed.

(** C2, as amended: the preprocessor returns the markdown_source
    unchanged if, and only if, it holds no opening tag (three backticks,
    [mermaid], a line feed, wherever in a line) that is followed at some
    distance by a line feed and three backticks. *)
Theorem preprocess_unchanged_iff (markdown_source : list N) :
  fence_occursb markdown_source = false <->
  preprocess markdown_source = markdown_source.
Proof.
  split.
  - intros H. unfold preprocess, replace_mermaid.
    rewrite (scan_no_fence _ H). apply render_keep.
  - intros H. destruct (fence_occursb markdown_source) eqn:E; [|reflexivity].
    destruct (preprocess_changes _ E H).
Qed.

(** C10: a mermaid fence without a content line is not matched by the
    pattern, which wants a line feed on either side of the body; with
    no opening tag before it and no closing fence after it, the
    preprocessor makes no replacement and returns the text unchanged. *)
Theorem empty_fence_unchanged (pre post : list N) :
  occursb fence_open pre = false -> occursb fence_close post = false ->
  match_at (fence_source [] ++ post) = None /\
  captures (scan 0 (pre ++ fence_source [] ++ post)) = [] /\
  preprocess (pre ++ fence_source [] ++ post) = pre ++ fence_source [] ++ post.
Proof.
  intros Hpre Hpost.
  assert (Hq : scan 0 (fence_source [] ++ post) =
               map Keep (fence_source [] ++ post)).
  { apply scan_unclosed. unfold fence_source, unlines. simpl flat_map.
    rewrite app_nil_l, <- app_assoc, skipn_app, skipn_all, Nat.sub_diag.
    rewrite skipn_O, app_nil_l, occursb_backticks. exact Hpost. }
  assert (Hs : scan 0 (pre ++ fence_source [] ++ post) =
               map Keep (pre ++ fence_source [] ++ post)).
  { rewrite map_app, <- Hq. unfold fence_source. rewrite <- !app_assoc.
    apply scan_text, Hpre. }
  split; [|split].
  - unfold match_at, fence_source, unlines. simpl flat_map.
    rewrite app_nil_l, <- app_assoc, strip_prefix_app.
    apply lazy_until_None. rewrite occursb_backticks. exact Hpost.
  - rewrite Hs. apply captures_keep.
  - unfold preprocess, replace_mermaid. rewrite Hs. apply render_keep.
Qed.

End Preprocessor.

(** ** The pipeline and the handler *)

Section Pipeline.

Implicit Types (env : gmap (list N) (list N)) (f m : list N) (w : world).

Lemma performCreatePDF_run env f m w :
  performCreatePDF env f m w =
  let path := staging_path (save_path_of env) f in
  let data := math_script ++ preprocess m in
  let config := pdf_config (save_path_of env) f in
  match writeFile_rejects w path data with
  | Some e => ([EvWriteFile path data], Thrown e)
  | None =>
      match mdToPdf_rejects w path config with
      | Some e => ([EvWriteFile path data; EvMdToPdf path config], Thrown e)
      | None =>
          ([EvWriteFile path data; EvMdToPdf path config],
           Returned {| file_name := f; download_url := download_url_of f |})
      end
  end.
Proof.
  unfold performCreatePDF, mbind, io_mbind, io_bind, writeFile, mdToPdf,
    mret, io_mret, io_ret.
  cbv zeta.
  destruct (writeFile_rejects w _ _); [reflexivity|].
  destruct (mdToPdf_rejects w _ _); reflexivity.
Qed.

Lemma template_4 (a b c d : list N) :
  template [a; b; c; d] = a ++ b ++ c ++ d.
Proof. unfold template. simpl. rewrite app_nil_r. reflexivity. Qed.

Lemma template_3 (a b c : list N) : template [a; b; c] = a ++ b ++ c.
Proof. unfold template. simpl. rewrite app_nil_r. reflexivity. Qed.

Lemma template_2 (a b : list N) : template [a; b] = a ++ b.
Proof. unfold template. simpl. rewrite app_nil_r. reflexivity. Qed.

Lemma staging_path_eq (dir f : list N) :
  staging_path dir f = dir ++ lit "/" ++ f ++ lit ".md".
Proof. apply template_4. Qed.

Lemma pdf_path_eq (dir f : list N) :
  pdf_path dir f = dir ++ lit "/" ++ f ++ lit ".pdf".
Proof. apply template_4. Qed.

Lemma handler_run env args w :
  call_tool_handler env (create_pdf_call args) w =
  if negb (truthy args) then
    ([], Returned (error_response (lit "No arguments provided")))
  else if negb (isCreatePDFArgs args) then
    ([], Returned (error_response (lit "Invalid arguments for create_pdf")))
  else
    match performCreatePDF env
            (as_string (get_property (lit "file_name") args))
            (as_string (get_property (lit "markdown_source") args)) w with
    | (t, Returned r) => (t, Returned (success_response r))
    | (t, Thrown e) => (t, Returned (error_response e))
    end.
Proof.
  unfold call_tool_handler, create_pdf_call, try_catch.
  cbn [params name arguments].
  change (jsstring_eqb (lit "create_pdf") (lit "create_pdf")) with true.
  cbv iota.
  destruct (truthy args); cbn [negb]; [|reflexivity].
  destruct (isCreatePDFArgs args); cbn [negb]; [|reflexivity].
  unfold mbind, io_mbind, io_bind, mret, io_mret, io_ret.
  destruct (performCreatePDF env _ _ w) as [t [r|e]];
    rewrite app_nil_r; reflexivity.
Qed.

Lemma performCreatePDF_trace env f m w :
  trace_of (performCreatePDF env f m) w =
  EvWriteFile (save_path_of env ++ lit "/" ++ f ++ lit ".md")
              (math_script ++ preprocess m) ::
  match writeFile_rejects w (save_path_of env ++ lit "/" ++ f ++ lit ".md")
                          (math_script ++ preprocess m) with
  | Some _ => []
  | None => [EvMdToPdf (save_path_of env ++ lit "/" ++ f ++ lit ".md")
                       (pdf_config (save_path_of env) f)]
  end.
Proof.
  unfold trace_of. rewrite performCreatePDF_run. cbv zeta.
  rewrite staging_path_eq.
  destruct (writeFile_rejects w _ _); [|destruct (mdToPdf_rejects w _ _)];
    reflexivity.
Qed.

(** A request with the two required strings reaches the pipeline. *)
Lemma handler_request env f m w :
  call_tool_handler env (create_pdf_request f m) w =
  match performCreatePDF env f m w with
  | (t, Returned r) => (t, Returned (success_response r))
  | (t, Thrown e) => (t, Returned (error_response e))
  end.
Proof.
  unfold create_pdf_request.
  change {| params := ?p |} with (create_pdf_call (arguments p)).
  rewrite handler_run. reflexivity.
Qed.

Lemma isCreatePDFArgs_members args :
  isCreatePDFArgs args =
  is_string_member (lit "file_name") args &&
  is_string_member (lit "markdown_source") args.
Proof.
  destruct args as [| | | | |items|fields]; try reflexivity.
  - unfold isCreatePDFArgs, is_string_member. cbn [typeof type_tag_eqb negb andb].
    cbn [get_property typeof type_tag_eqb].
    rewrite !andb_false_r. reflexivity.
  - unfold isCreatePDFArgs, is_string_member, has_property, get_property.
    cbn [typeof type_tag_eqb negb andb].
    destruct (assoc (lit "file_name") fields) as [[]|];
      destruct (assoc (lit "markdown_source") fields) as [[]|]; reflexivity.
Qed.

Lemma isCreatePDFArgs_truthy args :
  isCreatePDFArgs args = true -> truthy args = true.
Proof.
  destruct args; try reflexivity; unfold isCreatePDFArgs; simpl;
    discriminate.
Qed.

Lemma is_string_member_get k args :
  is_string_member k args = true ->
  exists s, get_property k args = VString s.
Proof.
  destruct args as [| | | | | |fields]; try discriminate.
  unfold is_string_member, get_property.
  destruct (assoc k fields) as [[]|]; try discriminate. eauto.
Qed.

Lemma preamble_written_eq env f m w :
  preamble_written env f m w = math_script.
Proof.
  unfold preamble_written, trace_of. rewrite performCreatePDF_run.
  cbv zeta.
  destruct (writeFile_rejects w _ _); [|destruct (mdToPdf_rejects w _ _)];
    cbn [fst]; rewrite length_app, Nat.add_sub; apply take_app_length.
Qed.

(** C3: the text put in front of the preprocessed body is the same in
    any two calls, whatever their environment, file_name,
    markdown_source and world: it is the constant [math_script]. *)
Theorem preamble_constant env1 f1 m1 w1 env2 f2 m2 w2 :
  preamble_written env1 f1 m1 w1 = preamble_written env2 f2 m2 w2 /\
  preamble_written env1 f1 m1 w1 = math_script.
Proof. rewrite !preamble_written_eq. auto. Qed.

(** C4, as amended: the call first writes [math_script] followed by the
    preprocessed markdown_source to [<dir>/<file_name>.md], where [dir]
    is the value of SAVE_PATH when that is set to a non-empty string
    and the default path otherwise; the engine is invoked afterwards,
    on that same path, and only when the write was not rejected. *)
Theorem staging_write env f m w :
  let dir := save_path_of env in
  let path := dir ++ lit "/" ++ f ++ lit ".md" in
  let data := math_script ++ preprocess m in
  (forall p, env !! lit "SAVE_PATH" = Some p -> p <> [] -> dir = p) /\
  (env !! lit "SAVE_PATH" = None \/ env !! lit "SAVE_PATH" = Some [] ->
   dir = default_save_path) /\
  trace_of (performCreatePDF env f m) w =
    EvWriteFile path data ::
    match writeFile_rejects w path data with
    | Some _ => []
    | None => [EvMdToPdf path (pdf_config dir f)]
    end.
Proof.
  cbv zeta. split; [|split].
  - intros p Hp Hne. unfold save_path_of. rewrite Hp.
    destruct p; [congruence|reflexivity].
  - intros [H|H]; unfold save_path_of; rewrite H; reflexivity.
  - apply performCreatePDF_trace.
Qed.


(** C6: a call that returns, returns the record made of the file_name
    it was given and of the URL [http://localhost:8000/<file_name>.pdf],
    whatever the markdown_source, the environment and the world; it
    does return when the external calls succeed, and the handler then
    answers with that record serialised; for [report] the URL is
    [http://localhost:8000/report.pdf]. *)
Theorem conversion_result env f m w :
  let expected_result :=
    {| file_name := f;
       download_url := lit "http://localhost:8000/" ++ f ++ lit ".pdf" |} in
  (forall r, result_of (performCreatePDF env f m) w = Returned r ->
             r = expected_result) /\
  result_of (performCreatePDF env f m) fair_world = Returned expected_result /\
  result_of (call_tool_handler env (create_pdf_request f m)) fair_world =
    Returned (success_response expected_result) /\
  download_url_of (lit "report") = lit "http://localhost:8000/report.pdf".
Proof.
  cbv zeta.
  assert (Hu : download_url_of f = lit "http://localhost:8000/" ++ f ++ lit ".pdf").
  { apply template_3. }
  rewrite <- Hu. split; [|split; [|split]].
  - intros r. unfold result_of. rewrite performCreatePDF_run. cbv zeta.
    destruct (writeFile_rejects w _ _); [discriminate|].
    destruct (mdToPdf_rejects w _ _); [discriminate|].
    cbn [snd]. congruence.
  - unfold result_of. rewrite performCreatePDF_run. reflexivity.
  - unfold result_of. rewrite handler_request, performCreatePDF_run.
    reflexivity.
  - reflexivity.
Qed.

(** C7, as amended: a create_pdf request that passes the argument
    checks carries a file_name and a markdown_source that are strings
    (either may be empty), and the pipeline runs on exactly these two
    strings. *)
Theorem validated_arguments env args w :
  truthy args = true -> isCreatePDFArgs args = true ->
  exists f m,
    get_property (lit "file_name") args = VString f /\
    get_property (lit "markdown_source") args = VString m /\
    call_tool_handler env (create_pdf_call args) w =
    match performCreatePDF env f m w with
    | (t, Returned r) => (t, Returned (success_response r))
    | (t, Thrown e) => (t, Returned (error_response e))
    end.
Proof.
  intros Ht Hv. pose proof Hv as Hm. rewrite isCreatePDFArgs_members in Hm.
  apply andb_true_iff in Hm as [Hf Hm].
  apply is_string_member_get in Hf as [f Hf].
  apply is_string_member_get in Hm as [m Hm].
  exists f, m. split; [exact Hf|]. split; [exact Hm|].
  rewrite handler_run, Ht, Hv, Hf, Hm. reflexivity.
Qed.

(** C8: a create_pdf request whose arguments are absent, or are not an
    object with a string file_name and a string markdown_source, is
    answered with [isError] set and the message [Error: No arguments
    provided] (absent or falsy arguments) or [Error: Invalid arguments
    for create_pdf]; nothing is written and the engine is not
    invoked. *)
Theorem invalid_arguments_rejected env args w :
  is_string_member (lit "file_name") args &&
  is_string_member (lit "markdown_source") args = false ->
  trace_of (call_tool_handler env (create_pdf_call args)) w = [] /\
  result_of (call_tool_handler env (create_pdf_call args)) w =
    Returned
      {| content :=
           [ {| type := lit "text";
                text := lit "Error: " ++
                        (if truthy args
                         then lit "Invalid arguments for create_pdf"
                         else lit "No arguments provided") |} ];
         isError := true |}.
Proof.
  intros H. rewrite <- isCreatePDFArgs_members in H.
  unfold trace_of, result_of. rewrite handler_run, H.
  unfold error_response, text_content. rewrite !template_2.
  destruct (truthy args); cbn [negb fst snd]; auto.
Qed.

(** C9: whatever string the file_name is, path separators and [..]
    included, the handler accepts it and the staging write goes to
    [<dir>/<file_name>.md] with the file_name spliced in as it came;
    for the file_name [../evil] that path lies outside the output
    directory (while for [report] it lies inside). *)
Theorem unsanitized_staging_path :
  (forall env f m w,
      exists rest,
        trace_of (call_tool_handler env (create_pdf_request f m)) w =
        EvWriteFile (save_path_of env ++ lit "/" ++ f ++ lit ".md")
                    (math_script ++ preprocess m) :: rest) /\
  within (save_path_of ∅)
         (save_path_of ∅ ++ lit "/" ++ lit "../evil" ++ lit ".md") = false /\
  within (save_path_of ∅)
         (save_path_of ∅ ++ lit "/" ++ lit "report" ++ lit ".md") = true.
Proof.
  split; [|split; vm_compute; reflexivity].
  intros env f m w.
  pose proof (performCreatePDF_trace env f m w) as Ht.
  unfold trace_of in *. rewrite handler_request.
  destruct (performCreatePDF env f m w) as [t [r|e]]; cbn [fst] in *;
    rewrite Ht; eauto.
Qed.

(** The earlier copy of the pipeline hands the engine the same plugins,
    but no timeout. *)
Lemma legacy_engine_options dir f :
  markdownItPlugins (marked_options (Legacy.pdf_config dir f)) =
    markdownItPlugins (marked_options (pdf_config dir f)) /\
  timeout (pdf_options (Legacy.pdf_config dir f)) = None.
Proof. split; reflexivity. Qed.

End Pipeline.

(** ** Concrete runs *)

(** C1, as stated, fails on a fence without content lines: the document
    is one well-formed mermaid fence, yet the pattern does not match and
    the output holds no container. *)
Lemma empty_fence_not_replaced :
  let d := Block [] [] (Tail []) in
  well_formed d = true /\
  length (fences d) = 1%nat /\
  captures (scan 0 (source d)) = [] /\
  preprocess (source d) = source d /\
  preprocess (source d) <> expected d.
Proof.
  vm_compute. repeat split; try reflexivity. discriminate.
Qed.

(** C10, as stated, fails when a closing fence follows later in the
    text: the opening tag of the empty fence is matched together with
    everything up to the next line that starts with three backticks. *)
Lemma empty_fence_swallowed :
  let post := [LF; LF] ++ lit "```js" ++ [LF] ++ lit "x" ++ [LF] ++ lit "```" in
  match_at (fence_source [] ++ post) =
    Some (lit "```" ++ [LF], lit "js" ++ [LF] ++ lit "x" ++ [LF] ++ lit "```") /\
  preprocess (fence_source [] ++ post) =
    mermaid_container (lit "```" ++ [LF]) ++
    lit "js" ++ [LF] ++ lit "x" ++ [LF] ++ lit "```" /\
  preprocess (fence_source [] ++ post) <> fence_source [] ++ post.
Proof.
  vm_compute. repeat split; try reflexivity. discriminate.
Qed.

(** C2, as stated, fails on an opening tag in the middle of a line: no
    line of the text opens a mermaid-labeled fenced code block, yet the
    pattern, which is not anchored to the start of a line, matches and
    the text is rewritten. *)
Lemma inline_fence_replaced :
  let s := lit "see ```mermaid" ++ [LF] ++ lit "A" ++ [LF] ++ lit "``` here" in
  has_mermaid_fence_line s = false /\
  preprocess s = lit "see " ++ mermaid_container (lit "A") ++ lit " here" /\
  preprocess s <> s.
Proof.
  vm_compute. repeat split; try reflexivity. discriminate.
Qed.

(** C4, as stated, fails when SAVE_PATH is set to the empty string: the
    write goes below the default directory, not below the override. *)
Lemma empty_override_ignored :
  let env : gmap (list N) (list N) := {[ lit "SAVE_PATH" := [] ]} in
  env !! lit "SAVE_PATH" = Some [] /\
  stated_output_dir env = [] /\
  trace_of (performCreatePDF env (lit "report") []) fair_world =
    [ EvWriteFile (default_save_path ++ lit "/report.md") math_script;
      EvMdToPdf (default_save_path ++ lit "/report.md")
                (pdf_config default_save_path (lit "report")) ] /\
  hd_error (trace_of (performCreatePDF env (lit "report") []) fair_world) <>
    Some (EvWriteFile (stated_output_dir env ++ lit "/report.md") math_script).
Proof.
  vm_compute. repeat split; try reflexivity. discriminate.
Qed.

(** C7, as stated, fails on empty strings: the request passes both
    checks and the pipeline runs with an empty file_name and an empty
    markdown_source. *)
Lemma empty_strings_accepted :
  let args := VObject [ (lit "file_name", VString []);
                        (lit "markdown_source", VString []) ] in
  truthy args = true /\
  isCreatePDFArgs args = true /\
  get_property (lit "file_name") args = VString [] /\
  get_property (lit "markdown_source") args = VString [] /\
  call_tool_handler ∅ (create_pdf_call args) fair_world =
    ( [ EvWriteFile (default_save_path ++ lit "/.md") math_script;
        EvMdToPdf (default_save_path ++ lit "/.md")
                  (pdf_config default_save_path []) ],
      Returned (success_response
                  {| file_name := [];
                     download_url := lit "http://localhost:8000/.pdf" |}) ).
Proof.
  vm_compute. repeat split; reflexivity.
Qed.

(** ** Instances *)

Lemma preprocess_fences_witness :
  let d := Block (lit "intro" ++ [LF])
                 [lit "graph TD;"; lit "  A-->B  "]
                 (Block [LF] [lit "pie"] (Tail (LF :: lit "end"))) in
  well_formed d = true /\ has_body d = true /\
  preprocess (source d) = expected d /\
  captures (scan 0 (source d)) = map fence_content (fences d) /\
  length (captures (scan 0 (source d))) = length (fences d).
Proof.
  intros d. split; [reflexivity|]. split; [reflexivity|].
  apply (preprocess_fences d); reflexivity.
Defined.

Lemma empty_fence_unchanged_witness :
  let pre := lit "intro" ++ [LF] in
  let post := LF :: lit "end" in
  occursb fence_open pre = false /\ occursb fence_close post = false /\
  match_at (fence_source [] ++ post) = None /\
  captures (scan 0 (pre ++ fence_source [] ++ post)) = [] /\
  preprocess (pre ++ fence_source [] ++ post) = pre ++ fence_source [] ++ post.
Proof.
  intros pre post. split; [reflexivity|]. split; [reflexivity|].
  apply (empty_fence_unchanged pre post); reflexivity.
Defined.

Lemma validated_arguments_witness :
  let args := VObject [ (lit "file_name", VString (lit "report"));
                        (lit "markdown_source", VString (lit "# Hi")) ] in
  truthy args = true /\ isCreatePDFArgs args = true /\
  exists f m,
    get_property (lit "file_name") args = VString f /\
    get_property (lit "markdown_source") args = VString m /\
    call_tool_handler ∅ (create_pdf_call args) fair_world =
    match performCreatePDF ∅ f m fair_world with
    | (t, Returned r) => (t, Returned (success_response r))
    | (t, Thrown e) => (t, Returned (error_response e))
    end.
Proof.
  intros args. split; [reflexivity|]. split; [reflexivity|].
  apply (validated_arguments ∅ args fair_world); reflexivity.
Defined.

Lemma invalid_arguments_rejected_witness :
  let args := VObject [ (lit "file_name", VString (lit "report")) ] in
  is_string_member (lit "file_name") args &&
  is_string_member (lit "markdown_source") args = false /\
  trace_of (call_tool_handler ∅ (create_pdf_call args)) fair_world = [] /\
  result_of (call_tool_handler ∅ (create_pdf_call args)) fair_world =
    Returned
      {| content :=
           [ {| type := lit "text";
                text := lit "Error: " ++
                        (if truthy args
                         then lit "Invalid arguments for create_pdf"
                         else lit "No arguments provided") |} ];
         isError := true |}.
Proof.
  intros args. split; [reflexivity|].
  apply (invalid_arguments_rejected ∅ args fair_world). reflexivity.
Defined.

(** * Further properties of the server *)

(** ** The handler on arbitrary calls *)

Section Handler.

Implicit Types (env : gmap (list N) (list N)) (f m tool : list N) (w : world)
  (args : value).

Lemma tool_call_run env tool args w :
  call_tool_handler env (tool_call tool args) w =
  if negb (truthy args) then
    ([], Returned (error_response (lit "No arguments provided")))
  else if jsstring_eqb tool (lit "create_pdf") then
    if negb (isCreatePDFArgs args) then
      ([], Returned (error_response (lit "Invalid arguments for create_pdf")))
    else
      match performCreatePDF env
              (as_string (get_property (lit "file_name") args))
              (as_string (get_property (lit "markdown_source") args)) w with
      | (t, Returned r) => (t, Returned (success_response r))
      | (t, Thrown e) => (t, Returned (error_response e))
      end
  else ([], Returned (unknown_tool_response tool)).
Proof.
  unfold call_tool_handler, tool_call, try_catch.
  cbn [params name arguments].
  destruct (truthy args); cbn [negb]; [|reflexivity].
  destruct (jsstring_eqb tool (lit "create_pdf")); [|reflexivity].
  destruct (isCreatePDFArgs args); cbn [negb]; [|reflexivity].
  unfold mbind, io_mbind, io_bind, mret, io_mret, io_ret.
  destruct (performCreatePDF env _ _ w) as [t [r|e]];
    rewrite app_nil_r; reflexivity.
Qed.

(** A call of any tool but create_pdf, with arguments present, is
    answered [Unknown tool: <name>] with [isError] set, and nothing is
    written or converted. *)
Theorem unknown_tool_reported env tool args w :
  tool <> lit "create_pdf" -> truthy args = true ->
  call_tool_handler env (tool_call tool args) w =
  ([], Returned {| content := [ {| type := lit "text";
                                   text := lit "Unknown tool: " ++ tool |} ];
                   isError := true |}).
Proof.
  intros Hn Ht. rewrite tool_call_run, Ht. cbn [negb].
  unfold jsstring_eqb. rewrite bool_decide_eq_false_2 by exact Hn.
  unfold unknown_tool_response, text_content. rewrite template_2.
  reflexivity.
Qed.

(** The arguments are looked at before the tool name: a call without
    arguments (or with falsy ones) is answered [Error: No arguments
    provided] whatever tool it names, known or not. *)
Theorem missing_arguments_reported env tool args w :
  truthy args = false ->
  call_tool_handler env (tool_call tool args) w =
  ([], Returned {| content := [ {| type := lit "text";
                                   text := lit "Error: No arguments provided" |} ];
                   isError := true |}).
Proof.
  intros Ht. rewrite tool_call_run, Ht. reflexivity.
Qed.

(** The handler never throws: every request gets a response, and the
    response is a success exactly when the call names create_pdf, its
    arguments pass the guard, and neither the staging write nor the
    engine is rejected. *)
Theorem handler_always_answers env (request : CallToolRequest) w :
  let tool := name (params request) in
  let args := arguments (params request) in
  let f := as_string (get_property (lit "file_name") args) in
  let dir := save_path_of env in
  let path := dir ++ lit "/" ++ f ++ lit ".md" in
  let data :=
    math_script ++
    preprocess (as_string (get_property (lit "markdown_source") args)) in
  exists response,
    result_of (call_tool_handler env request) w = Returned response /\
    (isError response = false <->
     tool = lit "create_pdf" /\ isCreatePDFArgs args = true /\
     writeFile_rejects w path data = None /\
     mdToPdf_rejects w path (pdf_config dir f) = None).
Proof.
  destruct request as [[tool args]]. cbn [name params arguments]. cbv zeta.
  change {| params := _ |} with (tool_call tool args).
  unfold result_of. rewrite tool_call_run.
  destruct (truthy args) eqn:Ht; cbn [negb].
  2:{ eexists. split; [reflexivity|]. cbn [isError error_response]. split; [discriminate|].
      intros (_ & Hv & _). apply isCreatePDFArgs_truthy in Hv. congruence. }
  unfold jsstring_eqb. case_bool_decide as Hn.
  2:{ eexists. split; [reflexivity|]. cbn [isError unknown_tool_response].
      split; [discriminate|]. intros (H & _). contradiction. }
  destruct (isCreatePDFArgs args) eqn:Hv; cbn [negb].
  2:{ eexists. split; [reflexivity|]. cbn [isError error_response].
      split; [discriminate|]. intros (_ & H & _). discriminate. }
  rewrite performCreatePDF_run. cbv zeta. rewrite staging_path_eq.
  destruct (writeFile_rejects w _ _) eqn:Hw.
  { eexists. split; [reflexivity|]. cbn [isError error_response].
    split; [discriminate|]. intros (_ & _ & H & _). discriminate. }
  destruct (mdToPdf_rejects w _ _) eqn:He.
  { eexists. split; [reflexivity|]. cbn [isError error_response].
    split; [discriminate|]. intros (_ & _ & _ & H). discriminate. }
  eexists. split; [reflexivity|]. cbn [isError success_response]. tauto.
Qed.

(** A rejected staging write is reported with the message of the
    rejection; the engine is not invoked. *)
Theorem write_failure_reported env args w e :
  let f := as_string (get_property (lit "file_name") args) in
  let path := save_path_of env ++ lit "/" ++ f ++ lit ".md" in
  let data :=
    math_script ++
    preprocess (as_string (get_property (lit "markdown_source") args)) in
  isCreatePDFArgs args = true ->
  writeFile_rejects w path data = Some e ->
  call_tool_handler env (create_pdf_call args) w =
  ([EvWriteFile path data],
   Returned {| content := [ {| type := lit "text"; text := lit "Error: " ++ e |} ];
               isError := true |}).
Proof.
  cbv zeta. intros Hv Hw.
  rewrite handler_run, (isCreatePDFArgs_truthy _ Hv), Hv. cbn [negb].
  rewrite performCreatePDF_run. cbv zeta. rewrite staging_path_eq, Hw.
  unfold error_response, text_content. rewrite template_2. reflexivity.
Qed.

(** A rejection by the engine is reported with its message; the staging
    file has been written by then and stays. *)
Theorem engine_failure_reported env args w e :
  let f := as_string (get_property (lit "file_name") args) in
  let dir := save_path_of env in
  let path := dir ++ lit "/" ++ f ++ lit ".md" in
  let data :=
    math_script ++
    preprocess (as_string (get_property (lit "markdown_source") args)) in
  isCreatePDFArgs args = true ->
  writeFile_rejects w path data = None ->
  mdToPdf_rejects w path (pdf_config dir f) = Some e ->
  call_tool_handler env (create_pdf_call args) w =
  ([EvWriteFile path data; EvMdToPdf path (pdf_config dir f)],
   Returned {| content := [ {| type := lit "text"; text := lit "Error: " ++ e |} ];
               isError := true |}).
Proof.
  cbv zeta. intros Hv Hw He.
  rewrite handler_run, (isCreatePDFArgs_truthy _ Hv), Hv. cbn [negb].
  rewrite performCreatePDF_run. cbv zeta. rewrite staging_path_eq, Hw, He.
  unfold error_response, text_content. rewrite template_2. reflexivity.
Qed.

(** Whatever the request, the handler performs no event, or one write,
    or one write followed by one engine run on the file just written. *)
Theorem handler_events env (request : CallToolRequest) w :
  let t := trace_of (call_tool_handler env request) w in
  t = [] \/
  exists path data,
    t = [EvWriteFile path data] \/
    exists config, t = [EvWriteFile path data; EvMdToPdf path config].
Proof.
  destruct request as [[tool args]]. cbv zeta.
  change {| params := _ |} with (tool_call tool args).
  unfold trace_of. rewrite tool_call_run.
  destruct (negb (truthy _)); [left; reflexivity|].
  destruct (jsstring_eqb _ _); [|left; reflexivity].
  destruct (negb (isCreatePDFArgs _)); [left; reflexivity|].
  right. rewrite performCreatePDF_run. cbv zeta.
  destruct (writeFile_rejects w _ _); [eauto|].
  destruct (mdToPdf_rejects w _ _); cbn [fst]; eauto.
Qed.

(** Only the members [file_name] and [markdown_source] of the arguments
    matter: two argument objects that agree on them are handled alike,
    whatever else they carry and in whatever order. *)
Theorem other_members_ignored env fields1 fields2 w :
  assoc (lit "file_name") fields1 = assoc (lit "file_name") fields2 ->
  assoc (lit "markdown_source") fields1 = assoc (lit "markdown_source") fields2 ->
  call_tool_handler env (create_pdf_call (VObject fields1)) w =
  call_tool_handler env (create_pdf_call (VObject fields2)) w.
Proof.
  intros Hf Hm. rewrite !handler_run.
  unfold isCreatePDFArgs, has_property, get_property.
  rewrite Hf, Hm. reflexivity.
Qed.

End Handler.

(** ** The advertised tool and the calls that are served *)

Section Advertisement.

Implicit Types (env : gmap (list N) (list N)) (tool : list N) (w : world)
  (args : value).

(** The tools the list handler names are the tools the call handler
    serves: a call with arguments is answered [Unknown tool] exactly when
    its name is not in the list; the capabilities given to the server
    carry the same names, descriptions and schemas. *)
Theorem listed_tools_served env tool args w w' :
  truthy args = true ->
  exists listing,
    list_tools_handler w' = ([], Returned listing) /\
    (In tool (map tool_name (tools listing)) <->
     result_of (call_tool_handler env (tool_call tool args)) w <>
     Returned (unknown_tool_response tool)) /\
    map (fun t => (tool_name t,
                   {| capability_description := description t;
                      capability_schema := inputSchema t |}))
        (tools listing) = tools_capability server_capabilities.
Proof.
  intros Ht. eexists. split; [reflexivity|]. split; [|reflexivity].
  cbn [tools map tool_name CREATE_PDF_TOOL In].
  unfold result_of. rewrite tool_call_run, Ht. cbn [negb].
  unfold jsstring_eqb. case_bool_decide as Hn.
  - subst tool. split; [|auto]. intros _.
    destruct (negb (isCreatePDFArgs args)); [cbn [snd]; discriminate|].
    destruct (performCreatePDF env _ _ w) as [t [r|e]]; cbn [snd];
      discriminate.
  - cbn [snd]. split; [|congruence]. intros [H|[]]. congruence.
Qed.

(** The guard accepts exactly the arguments that carry every member the
    advertised schema requires, as a string; and the schema declares each
    required member with type [string]. *)
Theorem guard_matches_schema args :
  isCreatePDFArgs args =
    forallb (fun k => is_string_member k args)
            (required (inputSchema CREATE_PDF_TOOL)) /\
  forallb (fun k =>
             existsb (fun p => jsstring_eqb (fst p) k &&
                               jsstring_eqb (property_type (snd p)) (lit "string"))
                     (properties (inputSchema CREATE_PDF_TOOL)))
          (required (inputSchema CREATE_PDF_TOOL)) = true.
Proof.
  split; [|vm_compute; reflexivity].
  rewrite isCreatePDFArgs_members.
  cbn [required inputSchema CREATE_PDF_TOOL forallb].
  rewrite andb_true_r. reflexivity.
Qed.

End Advertisement.

(** ** The container and the white space around a diagram *)

Section Container.

Implicit Types s l r code : list N.

Lemma trim_start_padding l s :
  forallb is_white_space l = true -> trim_start (l ++ s) = trim_start s.
Proof.
  induction l as [|c l IH]; intros H; [reflexivity|].
  simpl in H. apply andb_true_iff in H as [Hc Hl].
  simpl. rewrite Hc. apply IH, Hl.
Qed.

Lemma trim_start_nil s :
  forallb is_white_space s = true -> trim_start s = [].
Proof.
  intros H. rewrite <- (app_nil_r s), trim_start_padding by exact H.
  reflexivity.
Qed.

Lemma trim_start_keeps s r :
  trim_start s <> [] -> trim_start (s ++ r) = trim_start s ++ r.
Proof.
  induction s as [|c s IH]; intros H; [contradiction|].
  simpl in *. destruct (is_white_space c); [apply IH, H|reflexivity].
Qed.

Lemma trim_start_blank s :
  trim_start s = [] -> forallb is_white_space s = true.
Proof.
  induction s as [|c s IH]; intros H; [reflexivity|].
  simpl in *. destruct (is_white_space c); [apply IH, H|discriminate].
Qed.

Lemma trim_end_padding s r :
  forallb is_white_space r = true -> trim_end (s ++ r) = trim_end s.
Proof.
  intros H. unfold trim_end. rewrite rev_app_distr.
  rewrite trim_start_padding by (apply forallb_rev, H). reflexivity.
Qed.

Lemma trim_padding l s r :
  forallb is_white_space l = true -> forallb is_white_space r = true ->
  trim (l ++ s ++ r) = trim s.
Proof.
  intros Hl Hr. unfold trim. rewrite trim_start_padding by exact Hl.
  destruct (trim_start s) as [|c t] eqn:E.
  - apply trim_start_blank in E.
    rewrite trim_start_nil; [reflexivity|].
    rewrite forallb_app, E, Hr. reflexivity.
  - rewrite trim_start_keeps by (rewrite E; discriminate).
    rewrite E. apply trim_end_padding, Hr.
Qed.

(** The container built for a capture holds the capture without a
    white-space prefix and a white-space suffix, between the opening
    [<div class="mermaid">] line and the closing [</div>] line; what it
    holds neither starts nor ends with white space. *)
Theorem container_holds_trimmed code :
  exists l content r,
    code = l ++ content ++ r /\
    forallb is_white_space l = true /\
    forallb is_white_space r = true /\
    (forall c rest, content = c :: rest -> is_white_space c = false) /\
    (forall c rest, content = rest ++ [c] -> is_white_space c = false) /\
    mermaid_container code =
      lit "<div class=" ++ [DQUOTE] ++ lit "mermaid" ++ [DQUOTE] ++ lit ">" ++
      [LF] ++ content ++ [LF] ++ lit "</div>".
Proof.
  destruct (trim_spec code) as (l & r & Hc & Hl & Hr & Hh & Ht).
  exists l, (trim code), r.
  split; [exact Hc|]. split; [exact Hl|]. split; [exact Hr|].
  split; [|split].
  - intros c rest E. rewrite E in Hh. exact Hh.
  - intros c rest E. rewrite E, rev_app_distr in Ht. exact Ht.
  - rewrite mermaid_container_eq. unfold diagram_container, dq.
    rewrite <- !app_assoc. reflexivity.
Qed.

(** White space around the code of a diagram makes no difference to the
    container. *)
Theorem container_ignores_padding l code r :
  forallb is_white_space l = true -> forallb is_white_space r = true ->
  mermaid_container (l ++ code ++ r) = mermaid_container code.
Proof.
  intros Hl Hr. unfold mermaid_container. cbv zeta.
  rewrite trim_padding by assumption. reflexivity.
Qed.

End Container.

(** ** The preprocessor on arbitrary text *)

Section Replace.

Implicit Types s t r code : list N.

(** Replacing every match by itself gives the text back: the matches do
    not overlap, they are taken in order, and nothing between them is
    dropped or repeated. *)
Theorem replace_by_itself s :
  replace_mermaid (fun code => fence_open ++ code ++ fence_close) s = s.
Proof. unfold replace_mermaid. apply scan_tiles. Qed.

(** One step of the replacement: text without an opening tag is kept,
    the first fence after it, whose body ends at the first closing fence,
    becomes a container, and the rest of the text is preprocessed on its
    own, whatever it is. *)
Theorem preprocess_first_fence t code r :
  occursb fence_open t = false -> occursb fence_close code = false ->
  preprocess (t ++ fence_open ++ code ++ fence_close ++ r) =
  t ++ mermaid_container code ++ preprocess r.
Proof.
  intros Ht Hc. unfold preprocess, replace_mermaid.
  rewrite (scan_text t _ Ht), (scan_fence code r Hc).
  rewrite flat_map_app, render_keep. reflexivity.
Qed.

(** An opening tag that no closing fence follows is left alone, with
    everything around it. *)
Theorem unclosed_fence_unchanged t r :
  occursb fence_open t = false -> occursb fence_close r = false ->
  preprocess (t ++ fence_open ++ r) = t ++ fence_open ++ r.
Proof.
  intros Ht Hr. unfold preprocess, replace_mermaid.
  rewrite (scan_text t r Ht), (scan_unclosed (fence_open ++ r)).
  - rewrite <- map_app. apply render_keep.
  - rewrite skipn_app, skipn_all, Nat.sub_diag, skipn_O, app_nil_l.
    exact Hr.
Qed.

Lemma crlf_only_tail c s : crlf_only (c :: s) = true -> crlf_only s = true.
Proof.
  destruct s as [|y s]; [reflexivity|].
  cbn [crlf_only]. intros H. apply andb_true_iff in H. tauto.
Qed.

Lemma crlf_only_no_tag s :
  crlf_only s = true -> strip_prefix fence_open s = None.
Proof.
  intros H.
  destruct (strip_prefix fence_open s) as [rest|] eqn:E; [|reflexivity].
  apply strip_prefix_Some in E. subst s. exfalso.
  do 9 (apply crlf_only_tail in H).
  change (crlf_only (100 :: 10 :: rest) = true) in H.
  cbn in H. discriminate H.
Qed.

(** In a text whose line feeds all follow a carriage return (CR LF line
    endings) no fence is ever replaced. *)
Theorem crlf_text_unchanged s :
  crlf_only s = true -> preprocess s = s.
Proof.
  intros H. unfold preprocess, replace_mermaid.
  rewrite scan_plain; [apply render_keep|].
  induction s as [|c s IH]; [reflexivity|].
  cbn [occursb]. rewrite (crlf_only_no_tag _ H).
  apply IH. apply (crlf_only_tail c), H.
Qed.

End Replace.

(** ** Preprocessing twice *)

Section Idempotence.

Implicit Types p q s t a b r : list N.

Lemma strip_prefix_extend p t r y :
  strip_prefix p t = Some r -> strip_prefix p (t ++ y) = Some (r ++ y).
Proof.
  intros H. apply strip_prefix_Some in H. subst t.
  rewrite <- app_assoc. apply strip_prefix_app.
Qed.

Lemma strip_prefix_absent p t x b :
  free_of x p = true -> strip_prefix p t = None ->
  strip_prefix p (t ++ x :: b) = None.
Proof.
  revert t. induction p as [|c p IH]; intros t Hf H; [discriminate|].
  cbn [free_of forallb] in Hf. apply andb_true_iff in Hf as [Hc Hf].
  apply negb_true_iff in Hc.
  destruct t as [|d t]; cbn [app strip_prefix] in *.
  - rewrite Hc. reflexivity.
  - destruct (c =? d); [apply IH; assumption|reflexivity].
Qed.

(** A code unit that is not in the pattern cuts the search in two. *)
Lemma occursb_absent p a x b :
  p <> [] -> free_of x p = true ->
  occursb p (a ++ x :: b) = occursb p a || occursb p b.
Proof.
  intros Hp Hf.
  assert (Hnil : strip_prefix p [] = None)
    by (destruct p; [congruence|reflexivity]).
  induction a as [|c a IH].
  - cbn [app]. cbn [occursb]. rewrite Hnil.
    change (x :: b) with ([] ++ x :: b).
    rewrite (strip_prefix_absent p [] x b Hf Hnil). reflexivity.
  - change ((c :: a) ++ x :: b) with (c :: (a ++ x :: b)).
    cbn [occursb].
    destruct (strip_prefix p (c :: a)) as [r|] eqn:E.
    + change (c :: (a ++ x :: b)) with ((c :: a) ++ x :: b).
      rewrite (strip_prefix_extend _ _ _ _ E). reflexivity.
    + change (c :: (a ++ x :: b)) with ((c :: a) ++ x :: b).
      rewrite (strip_prefix_absent _ _ _ _ Hf E). exact IH.
Qed.

Lemma occursb_skip_absent p a s :
  p <> [] -> forallb (fun x => free_of x p) a = true ->
  occursb p (a ++ s) = occursb p s.
Proof.
  intros Hp. induction a as [|x a IH]; intros H; [reflexivity|].
  cbn [forallb] in H. apply andb_true_iff in H as [Hx Ha].
  change ((x :: a) ++ s) with ([] ++ x :: (a ++ s)).
  rewrite (occursb_absent p [] x _ Hp Hx), (IH Ha).
  destruct p; [congruence|reflexivity].
Qed.

Lemma occursb_sound p s :
  occursb p s = true -> exists a b, s = a ++ p ++ b.
Proof.
  induction s as [|c s IH]; cbn [occursb]; intros H.
  - destruct (strip_prefix p []) as [r|] eqn:E; [|discriminate].
    apply strip_prefix_Some in E. exists [], r. exact E.
  - destruct (strip_prefix p (c :: s)) as [r|] eqn:E.
    + apply strip_prefix_Some in E. exists [], r. exact E.
    + destruct (IH H) as (a & b & ->). exists (c :: a), b. reflexivity.
Qed.

Lemma occursb_part p l s r :
  occursb p (l ++ s ++ r) = false -> occursb p s = false.
Proof.
  intros H. destruct (occursb p s) eqn:E; [|reflexivity].
  apply occursb_sound in E as (a & b & ->).
  replace (l ++ (a ++ p ++ b) ++ r) with ((l ++ a) ++ p ++ (b ++ r)) in H
    by (rewrite <- !app_assoc; reflexivity).
  rewrite occursb_app in H. discriminate.
Qed.

Lemma occursb_longer p q s :
  occursb p s = false -> occursb (p ++ q) s = false.
Proof.
  intros H. destruct (occursb (p ++ q) s) eqn:E; [|reflexivity].
  apply occursb_sound in E as (a & b & ->).
  rewrite <- app_assoc, occursb_app in H. discriminate.
Qed.

Lemma diagram_container_shape content rest :
  diagram_container content ++ rest =
  60 :: (lit "div class=" ++ dq (lit "mermaid") ++ lit ">" ++ [LF]) ++
        (trim content ++ 10 :: []) ++ 60 :: lit "/div" ++ 62 :: rest.
Proof.
  unfold diagram_container, dq. rewrite <- !app_assoc. reflexivity.
Qed.

Lemma container_no_tag content rest :
  occursb backticks content = false ->
  occursb fence_open rest = false ->
  occursb fence_open (diagram_container content ++ rest) = false.
Proof.
  intros Hc Hr. rewrite diagram_container_shape.
  assert (Hfo : fence_open <> []) by discriminate.
  assert (Hbt : backticks <> []) by discriminate.
  change (60 :: ?x) with ([] ++ 60 :: x) at 1.
  rewrite (occursb_absent fence_open [] 60 _ Hfo eq_refl).
  rewrite app_assoc.
  rewrite (occursb_absent fence_open _ 60 _ Hfo eq_refl).
  rewrite (occursb_absent fence_open (lit "/div") 62 rest Hfo eq_refl), Hr.
  change (occursb fence_open []) with false.
  change (occursb fence_open (lit "/div")) with false.
  cbn [orb]. rewrite orb_false_r.
  change fence_open with (backticks ++ (lit "mermaid" ++ [LF])).
  apply occursb_longer.
  rewrite (occursb_skip_absent backticks
             (lit "div class=" ++ dq (lit "mermaid") ++ lit ">" ++ [LF])
             _ Hbt eq_refl).
  rewrite (occursb_absent backticks _ 10 [] Hbt eq_refl).
  change (occursb backticks []) with false. rewrite orb_false_r.
  destruct (trim_spec content) as (l & r & Hs & _).
  rewrite Hs in Hc. exact (occursb_part _ _ _ _ Hc).
Qed.

Lemma expected_no_tag d :
  well_formed d = true -> plain_contents d = true ->
  occursb fence_open (expected d) = false.
Proof.
  unfold plain_contents.
  induction d as [text|text lines rest IH];
    cbn [expected fences well_formed forallb]; intros Hw Hp.
  - apply negb_true_iff, Hw.
  - apply andb_true_iff in Hw as [Hw Hrest].
    apply andb_true_iff in Hw as [Ht _].
    apply andb_true_iff in Hp as [Hc Hp].
    apply negb_true_iff in Ht, Hc.
    rewrite diagram_container_shape.
    rewrite (occursb_absent fence_open text 60 _ ltac:(discriminate) eq_refl).
    rewrite Ht. cbn [orb].
    pose proof (container_no_tag (fence_content lines) (expected rest) Hc
                  (IH Hrest Hp)) as H.
    rewrite diagram_container_shape in H.
    change (60 :: ?x) with ([] ++ 60 :: x) in H at 1.
    rewrite (occursb_absent fence_open [] 60 _ ltac:(discriminate) eq_refl) in H.
    exact H.
Qed.

(** On a document whose fences have a body free of triple backticks,
    preprocessing a second time changes nothing: the containers are not
    taken for fences. *)
Theorem preprocess_twice (d : document) :
  well_formed d = true -> has_body d = true -> plain_contents d = true ->
  preprocess (preprocess (source d)) = preprocess (source d).
Proof.
  intros Hw Hb Hp.
  destruct (scan_document d Hw Hb) as [He _].
  change (preprocess (source d) = expected d) in He. rewrite He.
  unfold preprocess, replace_mermaid.
  rewrite (scan_plain _ (expected_no_tag d Hw Hp)). apply render_keep.
Qed.

End Idempotence.

(** ** File names, paths and URLs *)

Section Paths.

Implicit Types (env : gmap (list N) (list N)) (dir f a b s : list N).


Lemma split_on_nonempty sep s : split_on sep s <> [].
Proof.
  destruct s as [|c s]; cbn [split_on]; [discriminate|].
  destruct (c =? sep); [discriminate|].
  destruct (split_on sep s); discriminate.
Qed.

Lemma split_on_app sep a b :
  split_on sep (a ++ sep :: b) = split_on sep a ++ split_on sep b.
Proof.
  induction a as [|c a IH]; cbn [app split_on].
  - rewrite N.eqb_refl. reflexivity.
  - destruct (c =? sep); [rewrite IH; reflexivity|].
    rewrite IH. pose proof (split_on_nonempty sep a) as Hn.
    destruct (split_on sep a); [congruence|reflexivity].
Qed.

Lemma split_on_free sep s : free_of sep s = true -> split_on sep s = [s].
Proof.
  induction s as [|c s IH]; intros H; [reflexivity|].
  cbn [free_of forallb] in H. apply andb_true_iff in H as [Hc Hs].
  apply negb_true_iff in Hc. cbn [split_on]. rewrite Hc, (IH Hs).
  reflexivity.
Qed.

Lemma enter_named stack f ext :
  (3 <= length ext)%nat -> enter stack (f ++ ext) = (f ++ ext) :: stack.
Proof.
  intros H. unfold enter, jsstring_eqb.
  assert (Hl : (3 <= length (f ++ ext))%nat) by (rewrite length_app; lia).
  rewrite !bool_decide_eq_false_2; [reflexivity| | |];
    intros E; rewrite E in Hl; vm_compute in Hl; lia.
Qed.

Lemma resolve_child dir f ext :
  free_of SLASH (f ++ ext) = true -> (3 <= length ext)%nat ->
  resolve (dir ++ lit "/" ++ f ++ ext) = resolve dir ++ [f ++ ext].
Proof.
  intros Hf Hl. unfold resolve.
  change (dir ++ lit "/" ++ f ++ ext) with (dir ++ 47 :: (f ++ ext)).
  rewrite split_on_app, (split_on_free 47 _ Hf), fold_left_app.
  cbn [fold_left]. rewrite (enter_named _ f ext Hl). reflexivity.
Qed.

Lemma resolve_child_inv dir f1 f2 ext :
  free_of SLASH (f1 ++ ext) = true -> free_of SLASH (f2 ++ ext) = true ->
  (3 <= length ext)%nat ->
  resolve (dir ++ lit "/" ++ f1 ++ ext) = resolve (dir ++ lit "/" ++ f2 ++ ext) ->
  f1 = f2.
Proof.
  intros H1 H2 Hl E.
  rewrite (resolve_child dir f1 ext H1 Hl) in E.
  rewrite (resolve_child dir f2 ext H2 Hl) in E.
  apply app_inv_head in E. inversion E as [E'].
  apply app_inv_tail in E'. exact E'.
Qed.

(** Among file names without a path separator, the file_name determines
    the files: two requests whose staging paths, or whose PDF paths,
    resolve to the same file have the same file_name, whichever the
    output directory; and equal download URLs mean equal file names. *)
Theorem plain_names_one_to_one env f1 f2 :
  free_of SLASH f1 = true -> free_of SLASH f2 = true ->
  (resolve (staging_path (save_path_of env) f1) =
   resolve (staging_path (save_path_of env) f2) -> f1 = f2) /\
  (resolve (pdf_path (save_path_of env) f1) =
   resolve (pdf_path (save_path_of env) f2) -> f1 = f2) /\
  (download_url_of f1 = download_url_of f2 -> f1 = f2).
Proof.
  intros H1 H2.
  assert (Hext : forall f ext, free_of SLASH f = true ->
                               free_of SLASH ext = true ->
                               free_of SLASH (f ++ ext) = true).
  { intros f ext Hf He. unfold free_of in *. rewrite forallb_app, Hf, He.
    reflexivity. }
  rewrite !staging_path_eq, !pdf_path_eq. split; [|split].
  - apply resolve_child_inv; [apply Hext| apply Hext|simpl; lia];
      (assumption || reflexivity).
  - apply resolve_child_inv; [apply Hext| apply Hext|simpl; lia];
      (assumption || reflexivity).
  - unfold download_url_of. rewrite !template_3. intros E.
    apply app_inv_head, app_inv_tail in E. exact E.
Qed.

(** With a separator in the file_name two different names can denote one
    file. *)
Lemma separator_names_collide dir :
  resolve (staging_path dir (lit "a")) = resolve (staging_path dir (lit "./a")).
Proof.
  rewrite !staging_path_eq. unfold resolve.
  change (dir ++ lit "/" ++ lit "a" ++ lit ".md")
    with (dir ++ 47 :: lit "a.md").
  change (dir ++ lit "/" ++ lit "./a" ++ lit ".md")
    with (dir ++ 47 :: lit "./a.md").
  rewrite !split_on_app, !fold_left_app. reflexivity.
Qed.

(** A file_name without a path separator keeps both the staging file
    and the PDF inside the output directory, whichever directory that
    is: leaving it takes a [/] in the file_name. *)
Theorem plain_name_stays_inside env f :
  free_of SLASH f = true ->
  within (save_path_of env) (staging_path (save_path_of env) f) = true /\
  within (save_path_of env) (pdf_path (save_path_of env) f) = true.
Proof.
  intros Hf. rewrite staging_path_eq, pdf_path_eq. unfold within.
  assert (Hext : forall ext, free_of SLASH ext = true ->
                             free_of SLASH (f ++ ext) = true).
  { intros ext He. unfold free_of in *. rewrite forallb_app, Hf, He.
    reflexivity. }
  split; apply bool_decide_eq_true_2;
    rewrite resolve_child by (try apply Hext; try reflexivity; simpl; lia);
    apply prefix_app_r; reflexivity.
Qed.

End Paths.

(** ** The two copies of the pipeline *)

Section Copies.

Implicit Types (env : gmap (list N) (list N)) (f m : list N) (w : world).

Lemma legacy_run env f m w :
  Legacy.performCreatePDF env f m w =
  let path := staging_path (save_path_of env) f in
  let data := Legacy.math_script ++ m in
  let config := Legacy.pdf_config (save_path_of env) f in
  match writeFile_rejects w path data with
  | Some e => ([EvWriteFile path data], Thrown e)
  | None =>
      match mdToPdf_rejects w path config with
      | Some e => ([EvWriteFile path data; EvMdToPdf path config], Thrown e)
      | None =>
          ([EvWriteFile path data; EvMdToPdf path config],
           Returned {| file_name := f; download_url := download_url_of f |})
      end
  end.
Proof.
  unfold Legacy.performCreatePDF, mbind, io_mbind, io_bind, writeFile, mdToPdf,
    mret, io_mret, io_ret.
  cbv zeta.
  destruct (writeFile_rejects w _ _); [reflexivity|].
  destruct (mdToPdf_rejects w _ _); reflexivity.
Qed.

(** The earlier copy of the pipeline stages the markdown_source as it
    is behind its own preamble.  For a markdown_source without a mermaid
    opening tag the two copies write the same body to the same staging
    file, name the same PDF, and return the same result when the
    external calls succeed. *)
Theorem copies_agree_without_mermaid env f m :
  occursb fence_open m = false ->
  let path := save_path_of env ++ lit "/" ++ f ++ lit ".md" in
  exists config config',
    performCreatePDF env f m fair_world =
      ([EvWriteFile path (math_script ++ m); EvMdToPdf path config],
       Returned {| file_name := f; download_url := download_url_of f |}) /\
    Legacy.performCreatePDF env f m fair_world =
      ([EvWriteFile path (Legacy.math_script ++ m); EvMdToPdf path config'],
       Returned {| file_name := f; download_url := download_url_of f |}) /\
    dest config = dest config' /\
    markdownItPlugins (marked_options config) =
      markdownItPlugins (marked_options config').
Proof.
  intros Hm. cbv zeta.
  assert (Hp : preprocess m = m).
  { unfold preprocess, replace_mermaid. rewrite (scan_plain _ Hm).
    apply render_keep. }
  exists (pdf_config (save_path_of env) f),
         (Legacy.pdf_config (save_path_of env) f).
  rewrite performCreatePDF_run, legacy_run, Hp, staging_path_eq.
  repeat split; reflexivity.
Qed.

End Copies.

(** ** What a match is *)

Section Matches.

Implicit Types s code after cl : list N.

Lemma lazy_until_shortest cl s code after :
  cl <> [] -> lazy_until cl s = Some (code, after) -> occursb cl code = false.
Proof.
  intros Hcl. revert code.
  induction s as [|c s IH]; intros code H; rewrite lazy_until_eq in H.
  - destruct (strip_prefix cl []); [|discriminate].
    inversion H; subst. destruct cl; [congruence|reflexivity].
  - destruct (strip_prefix cl (c :: s)) as [r|] eqn:E.
    + inversion H; subst. destruct cl; [congruence|reflexivity].
    + destruct (lazy_until cl s) as [[code' after']|] eqn:El; [|discriminate].
      inversion H; subst code after'. cbn [occursb].
      pose proof (lazy_until_sound _ _ _ _ El) as Hs.
      destruct (strip_prefix cl (c :: code')) as [r|] eqn:Ep.
      * apply (strip_prefix_extend _ _ _ (cl ++ after)) in Ep.
        cbn [app] in Ep. rewrite <- Hs in Ep. congruence.
      * apply (IH code'). reflexivity.
Qed.

(** The pattern matches at the start of a text exactly when the text is
    the opening tag, a body that holds no line feed followed by three
    backticks, and the closing fence; the capture is that body, the
    shortest one possible. *)
Theorem match_at_exact s code after :
  match_at s = Some (code, after) <->
  s = fence_open ++ code ++ fence_close ++ after /\
  occursb fence_close code = false.
Proof.
  split.
  - intros H. split; [apply match_at_sound, H|].
    unfold match_at in H.
    destruct (strip_prefix fence_open s); [|discriminate].
    apply (lazy_until_shortest fence_close _ _ _ ltac:(discriminate) H).
  - intros [-> H]. apply match_at_fence, H.
Qed.

End Matches.

(** Without the restriction on the bodies a second pass may find a fence
    the first pass has put together. *)
Lemma preprocess_twice_differs :
  let s := fence_open ++ lit "A```mermaid" ++ [LF] ++ lit "B" ++ fence_close ++
           fence_open ++ lit "```x" ++ fence_close in
  preprocess (preprocess s) <> preprocess s.
Proof. vm_compute. discriminate. Qed.

(** ** Instances of the further properties *)

Lemma unknown_tool_reported_witness :
  let tool := lit "delete_pdf" in
  tool <> lit "create_pdf" /\ truthy report_args = true /\
  call_tool_handler ∅ (tool_call tool report_args) fair_world =
  ([], Returned {| content := [ {| type := lit "text";
                                   text := lit "Unknown tool: " ++ tool |} ];
                   isError := true |}).
Proof.
  intros tool.
  assert (Hn : tool <> lit "create_pdf") by (vm_compute; discriminate).
  split; [exact Hn|]. split; [reflexivity|].
  apply (unknown_tool_reported ∅ tool report_args fair_world Hn).
  reflexivity.
Defined.

Lemma missing_arguments_reported_witness :
  truthy VUndefined = false /\
  call_tool_handler ∅ (tool_call (lit "delete_pdf") VUndefined) fair_world =
  ([], Returned {| content := [ {| type := lit "text";
                                   text := lit "Error: No arguments provided" |} ];
                   isError := true |}).
Proof.
  split; [reflexivity|].
  apply (missing_arguments_reported ∅ (lit "delete_pdf") VUndefined fair_world).
  reflexivity.
Defined.

Lemma write_failure_reported_witness :
  let path := save_path_of ∅ ++ lit "/" ++ lit "report" ++ lit ".md" in
  let data := math_script ++ preprocess (lit "# Hi") in
  isCreatePDFArgs report_args = true /\
  writeFile_rejects read_only_world path data =
    Some (lit "EACCES: permission denied") /\
  call_tool_handler ∅ (create_pdf_call report_args) read_only_world =
  ([EvWriteFile path data],
   Returned {| content := [ {| type := lit "text";
                               text := lit "Error: " ++
                                       lit "EACCES: permission denied" |} ];
               isError := true |}).
Proof.
  intros path data. split; [reflexivity|]. split; [reflexivity|].
  apply (write_failure_reported ∅ report_args read_only_world
           (lit "EACCES: permission denied")); reflexivity.
Defined.

Lemma engine_failure_reported_witness :
  let path := save_path_of ∅ ++ lit "/" ++ lit "report" ++ lit ".md" in
  let data := math_script ++ preprocess (lit "# Hi") in
  let config := pdf_config (save_path_of ∅) (lit "report") in
  isCreatePDFArgs report_args = true /\
  writeFile_rejects stalled_world path data = None /\
  mdToPdf_rejects stalled_world path config =
    Some (lit "Navigation timeout of 30000 ms exceeded") /\
  call_tool_handler ∅ (create_pdf_call report_args) stalled_world =
  ([EvWriteFile path data; EvMdToPdf path config],
   Returned {| content := [ {| type := lit "text";
                               text := lit "Error: " ++
                                       lit "Navigation timeout of 30000 ms exceeded" |} ];
               isError := true |}).
Proof.
  intros path data config.
  split; [reflexivity|]. split; [reflexivity|]. split; [reflexivity|].
  apply (engine_failure_reported ∅ report_args stalled_world
           (lit "Navigation timeout of 30000 ms exceeded")); reflexivity.
Defined.

Lemma other_members_ignored_witness :
  let fields1 := [ (lit "title", VString (lit "x"));
                   (lit "file_name", VString (lit "report"));
                   (lit "markdown_source", VString (lit "# Hi")) ] in
  let fields2 := [ (lit "markdown_source", VString (lit "# Hi"));
                   (lit "file_name", VString (lit "report")) ] in
  assoc (lit "file_name") fields1 = assoc (lit "file_name") fields2 /\
  assoc (lit "markdown_source") fields1 = assoc (lit "markdown_source") fields2 /\
  call_tool_handler ∅ (create_pdf_call (VObject fields1)) fair_world =
  call_tool_handler ∅ (create_pdf_call (VObject fields2)) fair_world.
Proof.
  intros fields1 fields2. split; [reflexivity|]. split; [reflexivity|].
  apply (other_members_ignored ∅ fields1 fields2 fair_world); reflexivity.
Defined.

Lemma listed_tools_served_witness :
  truthy report_args = true /\
  exists listing,
    list_tools_handler fair_world = ([], Returned listing) /\
    (In (lit "create_pdf") (map tool_name (tools listing)) <->
     result_of (call_tool_handler ∅ (tool_call (lit "create_pdf") report_args))
               fair_world <>
     Returned (unknown_tool_response (lit "create_pdf"))) /\
    map (fun t => (tool_name t,
                   {| capability_description := description t;
                      capability_schema := inputSchema t |}))
        (tools listing) = tools_capability server_capabilities.
Proof.
  split; [reflexivity|].
  apply (listed_tools_served ∅ (lit "create_pdf") report_args fair_world
           fair_world).
  reflexivity.
Defined.

Lemma container_ignores_padding_witness :
  let l := [LF; 32; 32] in
  let r := [32; 13; LF] in
  let code := lit "graph TD;" in
  forallb is_white_space l = true /\ forallb is_white_space r = true /\
  mermaid_container (l ++ code ++ r) = mermaid_container code.
Proof.
  intros l r code. split; [reflexivity|]. split; [reflexivity|].
  apply (container_ignores_padding l code r); reflexivity.
Defined.

Lemma preprocess_first_fence_witness :
  let t := lit "intro" ++ [LF] in
  let code := lit "graph TD;" in
  let r := [LF] ++ fence_open ++ lit "unclosed" in
  occursb fence_open t = false /\ occursb fence_close code = false /\
  preprocess (t ++ fence_open ++ code ++ fence_close ++ r) =
  t ++ mermaid_container code ++ preprocess r.
Proof.
  intros t code r. split; [reflexivity|]. split; [reflexivity|].
  apply (preprocess_first_fence t code r); reflexivity.
Defined.

Lemma unclosed_fence_unchanged_witness :
  let t := lit "intro" ++ [LF] in
  let r := lit "graph TD;" ++ [LF] ++ lit "the end" in
  occursb fence_open t = false /\ occursb fence_close r = false /\
  preprocess (t ++ fence_open ++ r) = t ++ fence_open ++ r.
Proof.
  intros t r. split; [reflexivity|]. split; [reflexivity|].
  apply (unclosed_fence_unchanged t r); reflexivity.
Defined.

Lemma crlf_text_unchanged_witness :
  let s := lit "```mermaid" ++ [13; LF] ++ lit "graph TD;" ++ [13; LF] ++
           lit "```" ++ [13; LF] in
  crlf_only s = true /\ preprocess s = s.
Proof.
  intros s. split; [reflexivity|].
  apply (crlf_text_unchanged s). reflexivity.
Defined.

Lemma preprocess_twice_witness :
  let d := Block (lit "intro" ++ [LF])
                 [lit "graph TD;"; lit "  A-->B  "]
                 (Tail (LF :: lit "end")) in
  well_formed d = true /\ has_body d = true /\ plain_contents d = true /\
  preprocess (preprocess (source d)) = preprocess (source d).
Proof.
  intros d. split; [reflexivity|]. split; [reflexivity|].
  split; [reflexivity|].
  apply (preprocess_twice d); reflexivity.
Defined.

Lemma plain_name_stays_inside_witness :
  free_of SLASH (lit "..report") = true /\
  within (save_path_of ∅) (staging_path (save_path_of ∅) (lit "..report")) = true /\
  within (save_path_of ∅) (pdf_path (save_path_of ∅) (lit "..report")) = true.
Proof.
  split; [reflexivity|].
  apply (plain_name_stays_inside ∅ (lit "..report")). reflexivity.
Defined.

Lemma copies_agree_without_mermaid_witness :
  let m := lit "# Title" ++ [LF] ++ lit "$x^2$" in
  let path := save_path_of ∅ ++ lit "/" ++ lit "report" ++ lit ".md" in
  occursb fence_open m = false /\
  exists config config',
    performCreatePDF ∅ (lit "report") m fair_world =
      ([EvWriteFile path (math_script ++ m); EvMdToPdf path config],
       Returned {| file_name := lit "report";
                   download_url := download_url_of (lit "report") |}) /\
    Legacy.performCreatePDF ∅ (lit "report") m fair_world =
      ([EvWriteFile path (Legacy.math_script ++ m); EvMdToPdf path config'],
       Returned {| file_name := lit "report";
                   download_url := download_url_of (lit "report") |}) /\
    dest config = dest config' /\
    markdownItPlugins (marked_options config) =
      markdownItPlugins (marked_options config').
Proof.
  intros m path. split; [reflexivity|].
  apply (copies_agree_without_mermaid ∅ (lit "report") m). reflexivity.
Defined.

(** ** What [fence_occursb] says *)

Lemma fence_occursb_spec s :
  fence_occursb s = true <->
  exists a body b, s = a ++ fence_open ++ body ++ fence_close ++ b.
Proof.
  split.
  - induction s as [|c s IH]; rewrite fence_occursb_eq; intros H.
    + discriminate H.
    + apply orb_true_iff in H as [H|H].
      * unfold opening_closed in H.
        destruct (strip_prefix fence_open (c :: s)) as [rest|] eqn:E;
          [|discriminate].
        apply strip_prefix_Some in E.
        apply occursb_sound in H as (body & b & ->).
        exists [], body, b. exact E.
      * destruct (IH H) as (a & body & b & ->).
        exists (c :: a), body, b. reflexivity.
  - intros (a & body & b & ->). induction a as [|c a IH].
    + rewrite fence_occursb_eq. unfold opening_closed.
      rewrite app_nil_l, strip_prefix_app, occursb_app. reflexivity.
    + change ((c :: a) ++ fence_open ++ body ++ fence_close ++ b)
        with (c :: (a ++ fence_open ++ body ++ fence_close ++ b)).
      rewrite fence_occursb_eq, IH. apply orb_true_r.
Qed.

Lemma plain_names_one_to_one_witness :
  let f1 := lit "report" in
  let f2 := lit "report" in
  free_of SLASH f1 = true /\ free_of SLASH f2 = true /\
  (resolve (staging_path (save_path_of ∅) f1) =
   resolve (staging_path (save_path_of ∅) f2) -> f1 = f2) /\
  (resolve (pdf_path (save_path_of ∅) f1) =
   resolve (pdf_path (save_path_of ∅) f2) -> f1 = f2) /\
  (download_url_of f1 = download_url_of f2 -> f1 = f2).
Proof.
  intros f1 f2. split; [reflexivity|]. split; [reflexivity|].
  apply (plain_names_one_to_one ∅ f1 f2); reflexivity.
Defined.
